(** * GPU-Image-Classification: the training and validation loops

    A shallow embedding of the notebook [GPU-Image-Classification.ipynb]:
    the batch iterator built by [create_dataloaders], the training driver
    [train_model] and the validation routine [validate].

    Python integers are [Z], the floating-point scalars of the notebook are
    idealised as exact rationals [Q], dictionaries are [gmap]s, and the
    mutable model object, the autograd switch and the calls made to the
    tensor library are threaded through a small state/error/trace monad.
    The scalar arithmetic of [validate] is given a second time on IEEE
    floating-point numbers ([validate_floats]), where a loss can be NaN. *)

From Stdlib Require Import QArith Lia PrimFloat.
From stdpp Require Import gmap list.

(** ** Python values *)

(** The exceptions that can end a run. *)
Inductive exn :=
| ZeroDivisionError
| RuntimeError
| AssertionError.

Inductive Result (A : Type) :=
| Ok (a : A)
| Raise (e : exn).
Arguments Ok {A} a.
Arguments Raise {A} e.

(** The two modes of a model: [model.train()] and [model.eval()]. *)
Inductive Mode := Training | Evaluation.

Inductive Device := cuda | cpu.

(** ceil(a / b) on natural numbers. *)
Definition ceil_div (a b : nat) : nat := ((a + b - 1) / b)%nat.
Arguments ceil_div : simpl never.

Definition Qsum (l : list Q) : Q := foldr Qplus 0%Q l.

(** ** Batch iteration *)

(** [DataLoader(data, batch_size=batch_size, pin_memory=pin_memory)]: the
    object only remembers what it iterates over. *)
Record DataLoader (Sample : Type) := {
  dataset : list Sample;
  batch_size : nat;
  pin_memory : bool
}.
Arguments dataset {Sample} d.
Arguments batch_size {Sample} d.
Arguments pin_memory {Sample} d.

(** Modelled from the spec: the batch iterator itself
    ([torch.utils.data.DataLoader]) is library code that is not under src/.
    With the arguments [create_dataloaders] passes (no shuffling, no dropping
    of the remainder) it walks the samples in their stored order, appends
    each one to the current batch, hands the batch out as soon as it holds
    [batch_size] samples, and hands out a last shorter batch if samples
    remain. *)
Fixpoint batch_loop {Sample : Type} (bs : nat) (batch rest : list Sample)
  : list (list Sample) :=
  match rest with
  | [] => if (0 <? length batch)%nat then [batch] else []
  | x :: rest' =>
      let batch' := batch ++ [x] in
      if (length batch' =? bs)%nat
      then batch' :: batch_loop bs [] rest'
      else batch_loop bs batch' rest'
  end.

(** One full pass; a pass can be restarted and is the same each time. *)
Definition batches {Sample : Type} (dl : DataLoader Sample)
  : list (list Sample) :=
  batch_loop (batch_size dl) [] (dataset dl).

(** Every batch but the last one holds exactly [bs] samples. *)
Definition full_but_last {Sample : Type} (bs : nat)
    (bss : list (list Sample)) : Prop :=
  ∀ i b, bss !! i = Some b → (S i < length bss)%nat → length b = bs.

Definition create_dataloaders {Sample : Type}
    (train_data test_data : list Sample) (batch_size : nat) (pin_memory : bool)
  : DataLoader Sample * DataLoader Sample :=
  let train_dl := {| dataset := train_data; batch_size := batch_size;
                     pin_memory := pin_memory |} in
  let test_dl := {| dataset := test_data; batch_size := batch_size;
                    pin_memory := pin_memory |} in
  (train_dl, test_dl).

(** ** The tensor library

    What the notebook uses of the tensor library, as an interface.  Tensors
    are opaque: a model maps a batch of images to one row of class scores
    per image (and, in training mode, may update its buffers); [nll] is the
    negative log-likelihood of a label under the softmax of a row;
    a [Graph] is the record autograd keeps of a tracked computation and
    [autograd] the parameter gradient it yields.  [cuda_memory_reserved] is
    an accelerator facility: whether it answers or raises on a machine
    without an accelerator is up to the installed library. *)
Class Torch := {
  Image : Type;
  Scores : Type;
  Params : Type;
  Buffers : Type;
  Grads : Type;
  OptState : Type;
  Graph : Type;
  cuda_is_available : bool;
  cuda_memory_reserved : Z → Result Z;
  forward : Mode → Params → Buffers → list Image → list Scores * Buffers;
  argmax : Scores → Z;
  nll : Scores → Z → Q;
  ModelBackward : Mode → Params → Buffers → list Image → Graph;
  LossBackward : (list Scores → list Z → Q) → list Z → Graph → Graph;
  AddBackward : Graph → Graph → Graph;
  autograd : Graph → Grads;
  zeros_like : Params → Grads;
  accumulate : Grads → Grads → Grads;
  Adam : Params → Q → OptState;
  Adam_step : OptState → Params → Grads → Params * OptState
}.

(** A loss function, as a callable on (scores, labels). *)
Definition Criterion `{T : Torch} : Type := list Scores → list Z → Q.

(** [nn.CrossEntropyLoss()], with the default reduction: the mean over the
    rows of the batch of the per-sample negative log-likelihood. *)
Definition CrossEntropyLoss `{T : Torch} : Criterion :=
  λ preds labels,
    (Qsum (zip_with nll preds labels) / inject_Z (Z.of_nat (length labels)))%Q.

(** [device = torch.device('cuda' if torch.cuda.is_available() else 'cpu')] *)
Definition device `{T : Torch} : Device :=
  if cuda_is_available then cuda else cpu.

(** A tensor: its value and, when autograd tracks it, the recorded graph. *)
Record Tensor `{T : Torch} (A : Type) := {
  data : A;
  grad_fn : option Graph
}.
Arguments data {_ A} t.
Arguments grad_fn {_ A} t.

(** The model object: its mode, parameters, buffers and the gradients
    accumulated on its parameters. *)
Record Net `{T : Torch} := {
  mode : Mode;
  params : Params;
  buffers : Buffers;
  grad : Grads
}.

(** The mutable world of a run: the one model object every reference points
    to, and the autograd switch. *)
Record World `{T : Torch} := {
  net : Net;
  grad_enabled : bool
}.

(** The calls a run makes, in the order it makes them. *)
Inductive Event :=
| model_train
| model_eval
| model_to (d : Device)
| model_call (m : Mode) (tracked : bool)
| criterion_call
| optimizer_zero_grad
| loss_backward
| optimizer_step
| memory_reserved_call (dev : Z)
| print_cached (reserved : Z)
| print_iter (epoch : Z) (train_loss val_loss val_acc : Q).

(** ** The monad of runs: state, exceptions and the trace of calls *)

Record Run `{T : Torch} (A : Type) := {
  world : World;
  trace : list Event;
  outcome : Result A
}.
Arguments world {_ A} r.
Arguments trace {_ A} r.
Arguments outcome {_ A} r.

Definition M `{T : Torch} (A : Type) : Type := World → Run A.

#[export] Instance M_ret `{T : Torch} : MRet M :=
  λ A a w, {| world := w; trace := []; outcome := Ok a |}.

#[export] Instance M_bind `{T : Torch} : MBind M :=
  λ A B f m w,
    let r := m w in
    match outcome r with
    | Ok a =>
        let r' := f a (world r) in
        {| world := world r'; trace := trace r ++ trace r';
           outcome := outcome r' |}
    | Raise e => {| world := world r; trace := trace r; outcome := Raise e |}
    end.

Definition raise `{T : Torch} {A : Type} (e : exn) : M A :=
  λ w, {| world := w; trace := []; outcome := Raise e |}.

Definition emit `{T : Torch} (e : Event) : M unit :=
  λ w, {| world := w; trace := [e]; outcome := Ok tt |}.

Definition get_net `{T : Torch} : M Net :=
  λ w, {| world := w; trace := []; outcome := Ok (net w) |}.

Definition put_net `{T : Torch} (n : Net) : M unit :=
  λ w, {| world := {| net := n; grad_enabled := grad_enabled w |};
          trace := []; outcome := Ok tt |}.

Definition lift_result `{T : Torch} {A : Type} (r : Result A) : M A :=
  λ w, {| world := w; trace := []; outcome := r |}.

(** [for x in xs: body], threading the local variables the body updates. *)
Fixpoint for_each `{T : Torch} {X S : Type} (body : S → X → M S) (s : S)
    (xs : list X) : M S :=
  match xs with
  | [] => mret s
  | x :: xs' => s' ← body s x; for_each body s' xs'
  end.

(** [with torch.no_grad(): block]: autograd is switched off for the block
    and switched back to what it was on the way out, also on an exception. *)
Definition no_grad `{T : Torch} {A : Type} (block : M A) : M A :=
  λ w,
    let r := block {| net := net w; grad_enabled := false |} in
    {| world := {| net := net (world r); grad_enabled := grad_enabled w |};
       trace := trace r; outcome := outcome r |}.

(** ** Library calls as steps of a run *)

(** [model.train()] and [model.eval()] *)
Definition set_mode `{T : Torch} (m : Mode) : M unit :=
  n ← get_net;
  put_net {| mode := m; params := params n; buffers := buffers n;
             grad := grad n |};;
  emit (match m with Training => model_train | Evaluation => model_eval end).

(** [x.to(device)] on a batch tensor: the values are those of [x]. *)
Definition to {A : Type} (d : Device) (x : A) : A := x.

(** [model = model.to(device)]: the same object, its tensors moved. *)
Definition to_device `{T : Torch} (d : Device) : M unit := emit (model_to d).

(** [preds = model(images)] *)
Definition call_model `{T : Torch} (images : list Image)
  : M (Tensor (list Scores)) :=
  λ w,
    let n := net w in
    let out := forward (mode n) (params n) (buffers n) images in
    {| world := {| net := {| mode := mode n; params := params n;
                             buffers := out.2; grad := grad n |};
                   grad_enabled := grad_enabled w |};
       trace := [model_call (mode n) (grad_enabled w)];
       outcome := Ok {| data := out.1;
                        grad_fn := if grad_enabled w
                                   then Some (ModelBackward (mode n) (params n)
                                                (buffers n) images)
                                   else None |} |}.

(** [criterion(preds, labels)] *)
Definition call_criterion `{T : Torch} (criterion : Criterion)
    (preds : Tensor (list Scores)) (labels : list Z) : M (Tensor Q) :=
  emit criterion_call;;
  mret {| data := criterion (data preds) labels;
          grad_fn := LossBackward criterion labels <$> grad_fn preds |}.

(** [optimizer.zero_grad()] *)
Definition zero_grad `{T : Torch} : M unit :=
  n ← get_net;
  put_net {| mode := mode n; params := params n; buffers := buffers n;
             grad := zeros_like (params n) |};;
  emit optimizer_zero_grad.

(** [loss.backward()]: the gradient of the recorded graph is added to the
    gradients the parameters hold; a tensor without a graph cannot be
    differentiated. *)
Definition backward `{T : Torch} (loss : Tensor Q) : M unit :=
  match grad_fn loss with
  | None => raise RuntimeError
  | Some g =>
      n ← get_net;
      put_net {| mode := mode n; params := params n; buffers := buffers n;
                 grad := accumulate (grad n) (autograd g) |};;
      emit loss_backward
  end.

(** [optimizer.step()] *)
Definition step `{T : Torch} (optimizer : OptState) : M OptState :=
  n ← get_net;
  let upd := Adam_step optimizer (params n) (grad n) in
  put_net {| mode := mode n; params := upd.1; buffers := buffers n;
             grad := grad n |};;
  emit optimizer_step;;
  mret upd.2.

(** [torch.cuda.memory_reserved(dev)] *)
Definition memory_reserved `{T : Torch} (dev : Z) : M Z :=
  emit (memory_reserved_call dev);;
  lift_result (cuda_memory_reserved dev).

(** [(labels == preds_nonprob).sum().item()] *)
Definition count_equal (labels preds_nonprob : list Z) : Z :=
  Z.of_nat
    (length (filter (λ b, b = true) (zip_with Z.eqb labels preds_nonprob))).

(** [loss += x] where [loss] starts as the integer 0 and [x] is a tensor:
    the sum is tracked as soon as one of the two is. *)
Definition tensor_add `{T : Torch} (a b : Tensor Q) : Tensor Q :=
  {| data := (data a + data b)%Q;
     grad_fn := union_with (λ ga gb, Some (AddBackward ga gb))
                  (grad_fn a) (grad_fn b) |}.

(** ** The notebook's loops *)

(** The body of the batch loop of [train_model]. *)
Definition train_batch `{T : Torch} (criterion : Criterion)
    (s : OptState * Q * Z) (batch : list (Image * Z)) : M (OptState * Q * Z) :=
  let '(optimizer, curr_loss, N) := s in
  let images := to device batch.*1 in
  let labels := to device batch.*2 in
  preds ← call_model images;
  loss ← call_criterion criterion preds labels;
  let curr_loss := (curr_loss + data loss)%Q in
  let N := (N + Z.of_nat (length labels))%Z in
  zero_grad;;
  backward loss;;
  optimizer ← step optimizer;
  mret (optimizer, curr_loss, N).

(** The body of the batch loop of [validate]. *)
Definition validate_batch `{T : Torch} (criterion : Criterion)
    (s : Tensor Q * Z * Z) (batch : list (Image * Z)) : M (Tensor Q * Z * Z) :=
  let '(loss, N, N_correct) := s in
  let images := to device batch.*1 in
  let labels := to device batch.*2 in
  preds ← call_model images;
  let preds_nonprob := argmax <$> data preds in
  let N_correct := (N_correct + count_equal labels preds_nonprob)%Z in
  l ← call_criterion criterion preds labels;
  let loss := tensor_add loss l in
  let N := (N + Z.of_nat (length labels))%Z in
  mret (loss, N, N_correct).

(** [validate(test_dl, model, criterion)]; [model] is the model object of
    the world.  Both divisions of the last line raise when [N] is 0. *)
Definition validate `{T : Torch} (test_dl : DataLoader (Image * Z))
    (criterion : Criterion) : M (Tensor Q * Q) :=
  set_mode Evaluation;;
  let loss := {| data := 0%Q; grad_fn := None |} in
  let N := 0%Z in
  let N_correct := 0%Z in
  reserved ← memory_reserved 0;
  emit (print_cached reserved);;
  s ← no_grad (for_each (validate_batch criterion) (loss, N, N_correct)
                 (batches test_dl));
  let '(loss, N, N_correct) := s in
  if (N =? 0)%Z then raise ZeroDivisionError
  else mret ({| data := (data loss / inject_Z N)%Q; grad_fn := grad_fn loss |},
             (inject_Z N_correct / inject_Z N)%Q).

(** [epoch % print_freq == 0 or epoch == N_epochs-1]; the remainder raises
    when [print_freq] is 0. *)
Definition validation_due (epoch N_epochs print_freq : Z) : bool :=
  (epoch `mod` print_freq =? 0)%Z || (epoch =? N_epochs - 1)%Z.

(** The body of the epoch loop of [train_model]. *)
Definition train_epoch `{T : Torch} (train_dl test_dl : DataLoader (Image * Z))
    (criterion : Criterion) (N_epochs print_freq : Z)
    (s : OptState * gmap Z Q * gmap Z (Tensor Q)) (epoch : Z)
  : M (OptState * gmap Z Q * gmap Z (Tensor Q)) :=
  let '(optimizer, acc_dict, loss_dict) := s in
  let curr_loss := 0%Q in
  let N := 0%Z in
  s' ← for_each (train_batch criterion) (optimizer, curr_loss, N)
         (batches train_dl);
  let '(optimizer, curr_loss, N) := s' in
  if (print_freq =? 0)%Z then raise ZeroDivisionError
  else if validation_due epoch N_epochs print_freq then
    v ← validate test_dl criterion;
    let '(val_loss, val_acc) := v in
    let acc_dict := <[epoch := val_acc]> acc_dict in
    let loss_dict := <[epoch := val_loss]> loss_dict in
    (if (N =? 0)%Z then raise ZeroDivisionError
     else emit (print_iter epoch (curr_loss / inject_Z N)%Q (data val_loss)
                  val_acc));;
    mret (optimizer, acc_dict, loss_dict)
  else mret (optimizer, acc_dict, loss_dict).

(** [train_model(train_dl, test_dl, model, criterion, N_epochs, print_freq,
    lr)]; returns the model object and the two dictionaries. *)
Definition train_model `{T : Torch} (train_dl test_dl : DataLoader (Image * Z))
    (criterion : Criterion) (N_epochs print_freq : Z) (lr : Q)
  : M (Net * gmap Z Q * gmap Z (Tensor Q)) :=
  set_mode Training;;
  to_device device;;
  n ← get_net;
  let optimizer := Adam (params n) lr in
  s ← for_each (train_epoch train_dl test_dl criterion N_epochs print_freq)
        (optimizer, ∅, ∅) (seqZ 0 N_epochs);
  let '(_, acc_dict, loss_dict) := s in
  model ← get_net;
  mret (model, acc_dict, loss_dict).

(** The driver up to the moment epoch [epoch] has run its training batches
    and is about to decide on validation: the set-up of [train_model], the
    epochs before [epoch], and the batch loop of [epoch]. *)
Definition train_until `{T : Torch} (train_dl test_dl : DataLoader (Image * Z))
    (criterion : Criterion) (N_epochs print_freq : Z) (lr : Q) (epoch : Z)
  : M unit :=
  set_mode Training;;
  to_device device;;
  n ← get_net;
  let optimizer := Adam (params n) lr in
  s ← for_each (train_epoch train_dl test_dl criterion N_epochs print_freq)
        (optimizer, ∅, ∅) (seqZ 0 epoch);
  let '(optimizer, _, _) := s in
  for_each (train_batch criterion) (optimizer, 0%Q, 0%Z) (batches train_dl);;
  mret tt.

(** ** The scalars of [validate] as floating-point numbers *)




(** ** A small instance of the library

    Images, scores, parameters and gradients are integers: the model adds
    its parameter to each image, [argmax] reads the score as a class, the
    loss of a sample is the distance between its score and its label, every
    gradient is 1 and the optimizer subtracts the gradient. *)
Definition toy_torch (available : bool) (reserved : Z → Result Z)
  : Torch := {|
  Image := Z;
  Scores := Z;
  Params := Z;
  Buffers := unit;
  Grads := Z;
  OptState := unit;
  Graph := unit;
  cuda_is_available := available;
  cuda_memory_reserved := reserved;
  forward := λ _ p b images, ((λ x, x + p)%Z <$> images, b);
  argmax := λ s, s;
  nll := λ s l, inject_Z (Z.abs (s - l));
  ModelBackward := λ _ _ _ _, tt;
  LossBackward := λ _ _ _, tt;
  AddBackward := λ _ _, tt;
  autograd := λ _, 1%Z;
  zeros_like := λ _, 0%Z;
  accumulate := Z.add;
  Adam := λ _ _, tt;
  Adam_step := λ o p g, ((p - g)%Z, o)
|}.

(** A machine with an accelerator; a machine without one, on which the
    accelerator's memory query answers 0 as the installed library's does;
    and an installation whose memory query raises. *)
Definition gpu_torch : Torch := toy_torch true (λ _, Ok 0%Z).

Definition toy_world (T : Torch) (p : @Params T) (b : @Buffers T) (g : @Grads T)
  : @World T :=
  {| net := {| mode := Evaluation; params := p; buffers := b; grad := g |};
     grad_enabled := true |}.

Definition toy_loader (samples : list (Z * Z)) (bs : nat)
  : DataLoader (Z * Z) :=
  {| dataset := samples; batch_size := bs; pin_memory := true |}.

(** The number of samples of a sequence of batches. *)
Definition total_len {Sample : Type} (bss : list (list Sample)) : Z :=
  Z.of_nat (length (concat bss)).

(** The world [w] with the gradients of the model replaced by [g]. *)
Definition with_grad `{T : Torch} (g : Grads) (w : World) : World :=
  {| net := {| mode := mode (net w); params := params (net w);
               buffers := buffers (net w); grad := g |};
     grad_enabled := grad_enabled w |}.

(** The per-sample losses of one evaluation pass over the batches [bss],
    for a model with parameters [p] and buffers [b]: the negative
    log-likelihood of each sample's label under the scores the model gives
    it. *)
Fixpoint sample_losses `{T : Torch} (p : Params) (b : Buffers)
    (bss : list (list (Image * Z))) : list Q :=
  match bss with
  | [] => []
  | batch :: bss' =>
      let out := forward Evaluation p b batch.*1 in
      zip_with nll out.1 batch.*2 ++ sample_losses p out.2 bss'
  end.

(** The mean per-sample loss of a pass: the sum of the per-sample losses
    divided by the number of samples. *)
Definition mean_sample_loss `{T : Torch} (p : Params) (b : Buffers)
    (bss : list (list (Image * Z))) : Q :=
  (Qsum (sample_losses p b bss) / inject_Z (total_len bss))%Q.

(** The values the loss function takes on the successive batches of one
    evaluation pass. *)
Fixpoint batch_losses `{T : Torch} (criterion : Criterion) (p : Params)
    (b : Buffers) (bss : list (list (Image * Z))) : list Q :=
  match bss with
  | [] => []
  | batch :: bss' =>
      let out := forward Evaluation p b batch.*1 in
      criterion out.1 batch.*2 :: batch_losses criterion p out.2 bss'
  end.

(** [runs m w w' t r]: started in world [w], the run [m] ends in world [w']
    after the calls [t], with result [r]. *)
Definition runs `{T : Torch} {A : Type} (m : M A) (w w' : World) (t : list Event)
    (r : Result A) : Prop :=
  m w = {| world := w'; trace := t; outcome := r |}.

(** The world [w] with the mode of the model replaced by [m]. *)
Definition with_mode `{T : Torch} (m : Mode) (w : World) : World :=
  {| net := {| mode := m; params := params (net w);
               buffers := buffers (net w); grad := grad (net w) |};
     grad_enabled := grad_enabled w |}.

(** The calls of a validation pass that touch the model. *)
Definition is_model_eval (e : Event) : bool :=
  match e with model_eval => true | _ => false end.

Definition is_gradient_call (e : Event) : bool :=
  match e with
  | model_call _ true | optimizer_zero_grad | loss_backward | optimizer_step => true
  | _ => false
  end.

(** The calls of one batch step of training with the model in mode [m]. *)
Definition batch_step_calls (m : Mode) : list Event :=
  [model_call m true; criterion_call; optimizer_zero_grad; loss_backward;
   optimizer_step].

(** How many calls of a trace satisfy [f]. *)
Definition count_calls (f : Event → bool) (t : list Event) : nat :=
  length (List.filter f t).

Definition is_model_train (e : Event) : bool :=
  match e with model_train => true | _ => false end.

(** The buffers of the model after one evaluation pass over the batches
    [bss]. *)
Fixpoint eval_buffers `{T : Torch} (p : Params) (b : Buffers)
    (bss : list (list (Image * Z))) : Buffers :=
  match bss with
  | [] => b
  | batch :: bss' => eval_buffers p (forward Evaluation p b batch.*1).2 bss'
  end.

(** The number of samples of one evaluation pass whose top-scored class is
    their label. *)
Fixpoint correct_count `{T : Torch} (p : Params) (b : Buffers)
    (bss : list (list (Image * Z))) : Z :=
  match bss with
  | [] => 0
  | batch :: bss' =>
      let out := forward Evaluation p b batch.*1 in
      (count_equal batch.*2 (argmax <$> out.1) + correct_count p out.2 bss')%Z
  end.

(** The calls [validate] makes for one held-out batch. *)
Definition validate_batch_calls : list Event :=
  [model_call Evaluation false; criterion_call].

Definition is_optimizer_step (e : Event) : bool :=
  match e with optimizer_step => true | _ => false end.

(** The notebook's own run: [create_dataloaders(train_data, test_data, 128,
    pin_memory=True)], [criterion = nn.CrossEntropyLoss()] and
    [train_model(train_dl, test_dl, model, criterion, 20, 1)] with the
    default learning rate 1e-3. *)
Definition notebook_run `{T : Torch} (train_data test_data : list (Image * Z))
  : M (Net * gmap Z Q * gmap Z (Tensor Q)) :=
  let '(train_dl, test_dl) := create_dataloaders train_data test_data 128 true in
  let criterion := CrossEntropyLoss in
  train_model train_dl test_dl criterion 20 1 (1 # 1000).

(** * Properties *)

Lemma ceil_div_0 b : (0 < b)%nat → ceil_div 0 b = 0%nat.
Proof. intros Hb. unfold ceil_div. apply Nat.div_small. lia. Qed.

Lemma ceil_div_small a b : (0 < a ≤ b)%nat → ceil_div a b = 1%nat.
Proof.
  intros Hab. unfold ceil_div.
  replace (a + b - 1)%nat with ((a - 1) + 1 * b)%nat by lia.
  rewrite Nat.div_add by lia. rewrite Nat.div_small; lia.
Qed.

Lemma ceil_div_add a b : (0 < b)%nat → ceil_div (a + b) b = S (ceil_div a b).
Proof.
  intros Hb. unfold ceil_div.
  replace (a + b + b - 1)%nat with ((a + b - 1) + 1 * b)%nat by lia.
  rewrite Nat.div_add by lia. lia.
Qed.

(** [ceil_div] is the ceiling of the quotient: the least [k] with
    [a <= k * b]. *)
Lemma ceil_div_spec a b :
  (0 < b)%nat →
  (a ≤ ceil_div a b * b)%nat ∧ ∀ k, (a ≤ k * b)%nat → (ceil_div a b ≤ k)%nat.
Proof.
  intros Hb. unfold ceil_div. split.
  - pose proof (Nat.div_mod_eq (a + b - 1) b) as Hdm.
    pose proof (Nat.mod_upper_bound (a + b - 1) b ltac:(lia)). nia.
  - intros k Hk. apply Nat.lt_succ_r.
    apply Nat.Div0.div_lt_upper_bound. nia.
Qed.

Section DataLoader.
Context {Sample : Type}.
Implicit Types (batch rest : list Sample) (dl : DataLoader Sample).

Lemma batch_loop_concat bs batch rest :
  concat (batch_loop bs batch rest) = batch ++ rest.
Proof.
  revert batch; induction rest as [|x rest IH]; intros batch; simpl.
  - destruct batch; simpl; by rewrite ?app_nil_r.
  - destruct (_ =? _)%nat; simpl; rewrite IH; by rewrite <- ?app_assoc.
Qed.

Lemma batch_loop_length bs batch rest :
  (length batch < bs)%nat →
  length (batch_loop bs batch rest) = ceil_div (length batch + length rest) bs.
Proof.
  revert batch; induction rest as [|x rest IH]; intros batch Hlt;
    cbn [batch_loop length].
  - rewrite Nat.add_0_r. destruct batch as [|y batch]; cbn [length] in *.
    + by rewrite ceil_div_0 by lia.
    + rewrite ceil_div_small by lia. done.
  - rewrite length_app; cbn [length].
    destruct (Nat.eqb_spec (length batch + 1) bs) as [Heq|Hne];
      cbn [length].
    + rewrite IH by (cbn [length]; lia). cbn [length].
      replace (length batch + S (length rest))%nat
        with (length rest + bs)%nat by lia.
      rewrite ceil_div_add by lia. by rewrite Nat.add_0_l.
    + rewrite IH by (rewrite length_app; cbn [length]; lia).
      rewrite length_app; cbn [length]. f_equal; lia.
Qed.

Lemma batch_loop_sizes bs batch rest :
  (length batch < bs)%nat →
  Forall (λ b, (1 ≤ length b ≤ bs)%nat) (batch_loop bs batch rest).
Proof.
  revert batch; induction rest as [|x rest IH]; intros batch Hlt; simpl.
  - destruct batch; simpl in *; [constructor|].
    constructor; [simpl; lia | constructor].
  - destruct (Nat.eqb_spec (length (batch ++ [x])) bs) as [Heq|Hne].
    + constructor; [lia|]. apply IH; simpl; lia.
    + apply IH. rewrite length_app in *; simpl in *; lia.
Qed.

Lemma batch_loop_full_but_last bs batch rest :
  full_but_last bs (batch_loop bs batch rest).
Proof.
  revert batch; induction rest as [|x rest IH]; intros batch; simpl.
  - intros i b Hi Hlen. destruct (0 <? length batch)%nat; simpl in *.
    + destruct i; simpl in *; lia.
    + lia.
  - destruct (Nat.eqb_spec (length (batch ++ [x])) bs) as [Heq|Hne].
    + intros [|i] b Hi Hlen; simpl in *.
      * by inversion Hi; subst.
      * apply (IH [] i b Hi). lia.
    + apply IH.
Qed.

(** Batches are never empty, whatever the batch size. *)
Lemma batch_loop_nonempty bs batch rest :
  Forall (λ b, b ≠ []) (batch_loop bs batch rest).
Proof.
  revert batch; induction rest as [|x rest IH]; intros batch; simpl.
  - destruct batch; simpl; [constructor|].
    constructor; [done | constructor].
  - destruct (_ =? _)%nat; [constructor|]; try apply IH.
    by destruct batch.
Qed.

(** C6: for every batch size B >= 1 and every dataset of S samples, one
    pass of the batch iterator yields exactly ceil(S/B) batches; the
    batches, read in the order they are produced, are the dataset in its
    stored order (so every sample appears exactly once and nothing is
    shuffled); every batch holds between 1 and B samples and only the last
    one may hold fewer than B. *)
Theorem batches_cover_dataset_once dl :
  (1 ≤ batch_size dl)%nat →
  length (batches dl) = ceil_div (length (dataset dl)) (batch_size dl)
  ∧ (length (dataset dl) ≤ length (batches dl) * batch_size dl)%nat
  ∧ (∀ k, (length (dataset dl) ≤ k * batch_size dl)%nat →
          (length (batches dl) ≤ k)%nat)
  ∧ concat (batches dl) = dataset dl
  ∧ Forall (λ b, (1 ≤ length b ≤ batch_size dl)%nat) (batches dl)
  ∧ full_but_last (batch_size dl) (batches dl).
Proof.
  intros HB. unfold batches.
  assert (length (batch_loop (batch_size dl) [] (dataset dl)) =
          ceil_div (length (dataset dl)) (batch_size dl)) as Hlen
    by (by rewrite batch_loop_length by (simpl; lia)).
  destruct (ceil_div_spec (length (dataset dl)) (batch_size dl) HB)
    as [Hup Hleast].
  rewrite Hlen. split; [done|]. split; [done|]. split; [done|].
  split; [|split].
  - apply batch_loop_concat.
  - apply batch_loop_sizes; simpl; lia.
  - apply batch_loop_full_but_last.
Qed.

End DataLoader.

(** ** Rules for runs *)

Section Rules.
Context `{T : Torch}.
Implicit Types (w : World) (t : list Event).

Lemma runs_eq {A} (m : M A) w :
  runs m w (world (m w)) (trace (m w)) (outcome (m w)).
Proof. unfold runs. by destruct (m w). Qed.

Lemma runs_inj {A} (m : M A) w w1 w2 t1 t2 (r1 r2 : Result A) :
  runs m w w1 t1 r1 → runs m w w2 t2 r2 → w1 = w2 ∧ t1 = t2 ∧ r1 = r2.
Proof. unfold runs. intros -> [= -> -> ->]. done. Qed.

Lemma runs_trace {A} (m : M A) w w' t t' (r : Result A) :
  runs m w w' t r → t = t' → runs m w w' t' r.
Proof. by intros ? <-. Qed.

Lemma runs_ret {A} (a : A) w : runs (mret a) w w [] (Ok a).
Proof. reflexivity. Qed.

Lemma runs_bind {A B} (m : M A) (f : A → M B) w w1 w2 t1 t2 a r :
  runs m w w1 t1 (Ok a) →
  runs (f a) w1 w2 t2 r →
  runs (m ≫= f) w w2 (t1 ++ t2) r.
Proof.
  unfold runs, mbind, M_bind. intros Hm Hf. rewrite Hm. simpl.
  by rewrite Hf.
Qed.

Lemma runs_bind_raise {A B} (m : M A) (f : A → M B) w w1 t1 e :
  runs m w w1 t1 (Raise e) →
  runs (m ≫= f) w w1 t1 (Raise e).
Proof. unfold runs, mbind, M_bind. intros Hm. by rewrite Hm. Qed.

Lemma runs_bind_inv {A B} (m : M A) (f : A → M B) w w2 t b :
  runs (m ≫= f) w w2 t (Ok b) →
  ∃ a w1 t1 t2,
    runs m w w1 t1 (Ok a) ∧ runs (f a) w1 w2 t2 (Ok b) ∧ t = t1 ++ t2.
Proof.
  unfold runs, mbind, M_bind. destruct (m w) as [w1 t1 [a|e]]; simpl.
  - intros [= Hw Ht Ho]. exists a, w1, t1, (trace (f a w1)).
    split; [done|]. split; [|done]. destruct (f a w1); simpl in *. congruence.
  - intros [=].
Qed.

Lemma world_bind {A B} (m : M A) (f : A → M B) w w1 t1 a :
  runs m w w1 t1 (Ok a) → world ((m ≫= f) w) = world (f a w1).
Proof. unfold runs, mbind, M_bind. by intros ->. Qed.

Lemma world_bind_ret {A B} (m : M A) (b : B) w :
  world ((m ≫= λ _, mret b) w) = world (m w).
Proof. unfold mbind, M_bind. by destruct (m w) as [w1 t1 [a|e]]. Qed.

Lemma runs_for_each_snoc {X S} (body : S → X → M S) pre x :
  ∀ s0 w0 w t0 s w1 t1 r,
    runs (for_each body s0 pre) w0 w t0 (Ok s) →
    runs (body s x) w w1 t1 r →
    runs (for_each body s0 (pre ++ [x])) w0 w1 (t0 ++ t1) r.
Proof.
  induction pre as [|p pre IH]; intros s0 w0 w t0 s w1 t1 r Hpre Hx; simpl.
  - injection Hpre as <- <- <-. simpl. destruct r as [s1|e].
    + eapply runs_trace; [eapply runs_bind; [exact Hx | apply runs_ret]|].
      by rewrite app_nil_r.
    + by apply runs_bind_raise.
  - simpl in Hpre. apply runs_bind_inv in Hpre
      as (s1 & w2 & t2 & t3 & Hp & Hrest & ->).
    rewrite <- app_assoc. eapply runs_bind; [exact Hp|].
    by eapply IH.
Qed.

Lemma runs_no_grad {A} (block : M A) w w1 t r :
  runs block {| net := net w; grad_enabled := false |} w1 t r →
  runs (no_grad block) w
    {| net := net w1; grad_enabled := grad_enabled w |} t r.
Proof. unfold runs, no_grad. intros Hb. by rewrite Hb. Qed.

Lemma runs_set_mode m w :
  runs (set_mode m) w (with_mode m w)
    [match m with Training => model_train | Evaluation => model_eval end]
    (Ok tt).
Proof. reflexivity. Qed.

Lemma runs_memory_reserved dev w :
  runs (memory_reserved dev) w w [memory_reserved_call dev]
    (cuda_memory_reserved dev).
Proof. reflexivity. Qed.

Lemma runs_emit e w : runs (emit e) w w [e] (Ok tt).
Proof. reflexivity. Qed.

Lemma runs_raise {A} e w : runs (raise (A:=A) e) w w [] (Raise e).
Proof. reflexivity. Qed.

End Rules.

(** ** The validation routine *)

Section Validate.
Context `{T : Torch}.
Implicit Types (w : World) (criterion : Criterion)
  (test_dl : DataLoader (Image * Z)).

Lemma total_len_cons {Sample} (b : list Sample) bss :
  total_len (b :: bss) = (Z.of_nat (length b) + total_len bss)%Z.
Proof. unfold total_len. simpl. rewrite length_app. lia. Qed.

Lemma total_len_batches {Sample} (dl : DataLoader Sample) :
  total_len (batches dl) = Z.of_nat (length (dataset dl)).
Proof. unfold total_len, batches. by rewrite batch_loop_concat. Qed.

Lemma count_equal_bounds labels preds_nonprob :
  (0 ≤ count_equal labels preds_nonprob ≤ Z.of_nat (length labels))%Z.
Proof.
  unfold count_equal. split; [lia|]. apply inj_le.
  etrans; [apply length_filter|]. rewrite length_zip_with. lia.
Qed.

(** The batch loop of [validate], run with autograd switched off. *)
Lemma validate_loop_runs criterion bss loss N N_correct w :
  grad_enabled w = false →
  ∃ w' t loss' N_correct',
    runs (for_each (validate_batch criterion) (loss, N, N_correct) bss)
      w w' t (Ok (loss', (N + total_len bss)%Z, N_correct'))
    ∧ mode (net w') = mode (net w)
    ∧ params (net w') = params (net w)
    ∧ grad (net w') = grad (net w)
    ∧ grad_enabled w' = false
    ∧ Forall (λ e, e = model_call (mode (net w)) false ∨ e = criterion_call) t
    ∧ (N_correct ≤ N_correct' ≤ N_correct + total_len bss)%Z
    ∧ (grad_fn loss = None → grad_fn loss' = None)
    ∧ ((∀ preds labels, (0 <= criterion preds labels)%Q) →
       (data loss <= data loss')%Q)
    ∧ (mode (net w) = Evaluation →
       (data loss' ==
          data loss
          + Qsum (batch_losses criterion (params (net w)) (buffers (net w))
                    bss))%Q).
Proof.
  revert loss N N_correct w.
  induction bss as [|b bss IH]; intros loss N N_correct w Hge.
  - exists w, [], loss, N_correct. unfold total_len; simpl.
    rewrite Z.add_0_r. repeat split; try done; try lia.
    + intros _. apply Qle_refl.
    + intros _. by rewrite Qplus_0_r.
  - destruct w as [n ge]; simpl in Hge; subst ge.
    set (out := forward (mode n) (params n) (buffers n) b.*1).
    set (w1 := {| net := {| mode := mode n; params := params n;
                            buffers := out.2; grad := grad n |};
                  grad_enabled := false |}).
    set (loss1 := tensor_add loss
                    {| data := criterion out.1 b.*2; grad_fn := None |}).
    set (N1 := (N + Z.of_nat (length b.*2))%Z).
    set (Nc1 := (N_correct + count_equal b.*2 (argmax <$> out.1))%Z).
    destruct (IH loss1 N1 Nc1 w1 eq_refl)
      as (w' & t & loss' & Nc' & Hrun & Hmode & Hpar & Hgrad & Hge' & Ht
          & HNc & Hfn & Hdata & Hsum).
    exists w', ([model_call (mode n) false; criterion_call] ++ t), loss', Nc'.
    pose proof (count_equal_bounds b.*2 (argmax <$> out.1)) as Hcnt.
    rewrite total_len_cons. rewrite length_fmap in *.
    repeat split; try done; try lia.
    + replace (N + (Z.of_nat (length b) + total_len bss))%Z
        with (N1 + total_len bss)%Z by (unfold N1; rewrite length_fmap; lia).
      eapply runs_bind; [|exact Hrun]. reflexivity.
    + simpl. constructor; [by left|]. constructor; [by right|]. exact Ht.
    + intros Hnone. apply Hfn. unfold loss1, tensor_add; simpl.
      by rewrite Hnone.
    + intros Hnn. apply Qle_trans with (data loss1); [|apply Hdata, Hnn].
      unfold loss1, tensor_add; simpl.
      rewrite <- (Qplus_0_r (data loss)) at 1.
      apply Qplus_le_compat; [apply Qle_refl | apply Hnn].
    + simpl. intros Hev. rewrite (Hsum Hev).
      unfold loss1, w1, out, tensor_add. simpl. rewrite Hev.
      by rewrite Qplus_assoc.
Qed.

(** What a call of [validate] does: either the accelerator query raises
    and the call ends there, or the pass runs and the two quotients are
    returned (unless no sample was seen). *)
Lemma validate_cases test_dl criterion w :
  (∃ e, cuda_memory_reserved 0 = Raise e
      ∧ runs (validate test_dl criterion) w (with_mode Evaluation w)
          [model_eval; memory_reserved_call 0] (Raise e))
  ∨ (∃ v w' t loss N_correct,
      let N := total_len (batches test_dl) in
      cuda_memory_reserved 0 = Ok v
      ∧ runs (validate test_dl criterion) w w'
          ([model_eval; memory_reserved_call 0; print_cached v] ++ t)
          (if (N =? 0)%Z then Raise ZeroDivisionError
           else Ok ({| data := (data loss / inject_Z N)%Q; grad_fn := None |},
                    (inject_Z N_correct / inject_Z N)%Q))
      ∧ mode (net w') = Evaluation
      ∧ params (net w') = params (net w)
      ∧ grad (net w') = grad (net w)
      ∧ grad_enabled w' = grad_enabled w
      ∧ Forall (λ e, e = model_call Evaluation false ∨ e = criterion_call) t
      ∧ (0 ≤ N_correct ≤ N)%Z
      ∧ ((∀ preds labels, (0 <= criterion preds labels)%Q) →
         (0 <= data loss)%Q)
      ∧ (data loss ==
           Qsum (batch_losses criterion (params (net w)) (buffers (net w))
                   (batches test_dl)))%Q).
Proof.
  destruct (cuda_memory_reserved 0) as [v|e] eqn:Hres.
  - right.
    destruct (validate_loop_runs criterion (batches test_dl)
                {| data := 0%Q; grad_fn := None |} 0%Z 0%Z
                {| net := net (with_mode Evaluation w); grad_enabled := false |}
                eq_refl)
      as (w' & t & loss & Nc & Hrun & Hmode & Hpar & Hgrad & Hge & Ht
          & HNc & Hfn & Hdata & Hsum).
    rewrite Z.add_0_l in *.
    simpl in Hmode, Hpar, Hgrad, Ht, Hfn, Hdata, Hsum.
    exists v, {| net := net w'; grad_enabled := grad_enabled w |}, t, loss, Nc.
    simpl. repeat split; try done; try lia;
      [|by rewrite (Hsum eq_refl), Qplus_0_l].
    unfold validate.
    eapply runs_trace.
    { eapply runs_bind; [apply runs_set_mode|].
      eapply runs_bind.
      { pose proof (runs_memory_reserved 0 (with_mode Evaluation w)) as Hm.
        rewrite Hres in Hm. exact Hm. }
      eapply runs_bind; [apply runs_emit|].
      eapply runs_bind; [apply runs_no_grad, Hrun|].
      simpl. rewrite (Hfn eq_refl).
      destruct (total_len (batches test_dl) =? 0)%Z;
        [apply runs_raise | apply runs_ret]. }
    simpl. by rewrite app_nil_r.
  - left. exists e. split; [done|].
    unfold validate.
    eapply runs_trace.
    { eapply runs_bind; [apply runs_set_mode|].
      apply runs_bind_raise.
      pose proof (runs_memory_reserved 0 (with_mode Evaluation w)) as Hm.
      rewrite Hres in Hm. exact Hm. }
    reflexivity.
Qed.





(** X7: on a non-empty held-out set, the loss [validate] returns is the
    sum of the values the loss function takes on the successive batches,
    divided by the number of samples. *)
Lemma validate_loss_value test_dl criterion w v :
  dataset test_dl ≠ [] →
  cuda_memory_reserved 0 = Ok v →
  ∃ val_loss val_acc,
    outcome (validate test_dl criterion w) = Ok (val_loss, val_acc)
    ∧ (data val_loss ==
         Qsum (batch_losses criterion (params (net w)) (buffers (net w))
                 (batches test_dl))
         / inject_Z (total_len (batches test_dl)))%Q.
Proof.
  intros Hne Hres.
  destruct (validate_cases test_dl criterion w)
    as [(e & Hres' & _)|(v' & w' & t & loss & Nc & _ & Hrun & _ & _ & _ & _
                         & _ & _ & _ & Hsum)]; [congruence|].
  rewrite Hrun; simpl.
  assert (0 < total_len (batches test_dl))%Z as Hpos.
  { rewrite total_len_batches. destruct (dataset test_dl); simpl; [done|lia]. }
  destruct (Z.eqb_spec (total_len (batches test_dl)) 0); [lia|].
  eexists _, _. split; [reflexivity|]. simpl. by rewrite Hsum.
Qed.

(** [validate] queries the accelerator's memory on every call, whatever
    device was selected: the query is the second call it makes, and if the
    query raises the whole validation ends with that exception. *)
Theorem validate_queries_accelerator test_dl criterion w :
  (∃ t, trace (validate test_dl criterion w) =
          model_eval :: memory_reserved_call 0 :: t)
  ∧ ∀ e, cuda_memory_reserved 0 = Raise e →
         outcome (validate test_dl criterion w) = Raise e.
Proof.
  destruct (validate_cases test_dl criterion w)
    as [(e & Hres & Hrun)|(v & w' & t & loss & Nc & Hres & Hrun & _)];
    rewrite Hrun; simpl.
  - split; [by exists []|]. intros e' He'. congruence.
  - split; [by eexists|]. intros e' He'. congruence.
Qed.


(** C9: a call of [validate] leaves every parameter and every parameter
    gradient as it found them, leaves the autograd switch as it was, makes
    no tracked forward pass, no gradient clearing, no backpropagation and
    no optimizer step, and the loss it returns carries no autograd
    graph. *)
Theorem validate_frame test_dl criterion w :
  params (net (world (validate test_dl criterion w))) = params (net w)
  ∧ grad (net (world (validate test_dl criterion w))) = grad (net w)
  ∧ grad_enabled (world (validate test_dl criterion w)) = grad_enabled w
  ∧ Forall (λ e, is_gradient_call e = false)
      (trace (validate test_dl criterion w))
  ∧ match outcome (validate test_dl criterion w) with
    | Ok (val_loss, _) => grad_fn val_loss = None
    | Raise _ => True
    end.
Proof.
  destruct (validate_cases test_dl criterion w)
    as [(e & Hres & Hrun)|(v & w' & t & loss & Nc & Hres & Hrun & Hmode
                           & Hpar & Hgrad & Hge & Ht & _)];
    rewrite Hrun; simpl.
  - repeat split; try done. repeat constructor.
  - repeat split; try done.
    + repeat (constructor; [done|]).
      eapply Forall_impl; [exact Ht|]. by intros e [-> | ->].
    + by destruct (_ =? _)%Z.
Qed.

End Validate.

(** ** The training driver *)

Section Train.
Context `{T : Torch}.
Implicit Types (w : World) (criterion : Criterion)
  (train_dl test_dl : DataLoader (Image * Z)).

Lemma validation_due_spec epoch N_epochs print_freq :
  validation_due epoch N_epochs print_freq = true
  ↔ (epoch `mod` print_freq = 0 ∨ epoch = N_epochs - 1)%Z.
Proof.
  unfold validation_due. rewrite orb_true_iff, !Z.eqb_eq. done.
Qed.

(** One batch step, run with autograd switched on. *)
Lemma train_batch_runs criterion optimizer curr_loss N b (n : Net) :
  let out := forward (mode n) (params n) (buffers n) b.*1 in
  let g := accumulate (zeros_like (params n))
             (autograd (LossBackward criterion b.*2
                (ModelBackward (mode n) (params n) (buffers n) b.*1))) in
  let upd := Adam_step optimizer (params n) g in
  runs (train_batch criterion (optimizer, curr_loss, N) b)
    {| net := n; grad_enabled := true |}
    {| net := {| mode := mode n; params := upd.1; buffers := out.2;
                 grad := g |};
       grad_enabled := true |}
    (batch_step_calls (mode n))
    (Ok (upd.2, (curr_loss + criterion out.1 b.*2)%Q,
         (N + Z.of_nat (length b.*2))%Z)).
Proof. reflexivity. Qed.

(** The batch loop of [train_model], run with autograd switched on. *)
Lemma train_loop_runs criterion bss optimizer curr_loss N w :
  grad_enabled w = true →
  ∃ w' t optimizer' curr_loss',
    runs (for_each (train_batch criterion) (optimizer, curr_loss, N) bss)
      w w' t (Ok (optimizer', curr_loss', (N + total_len bss)%Z))
    ∧ mode (net w') = mode (net w)
    ∧ grad_enabled w' = true
    ∧ Forall (λ e, is_model_eval e = false ∧ is_model_train e = false) t
    ∧ (bss ≠ [] → ∃ t', t = model_call (mode (net w)) true :: t')
    ∧ t = concat ((λ _, batch_step_calls (mode (net w))) <$> bss).
Proof.
  revert optimizer curr_loss N w.
  induction bss as [|b bss IH]; intros optimizer curr_loss N w Hge.
  - exists w, [], optimizer, curr_loss. unfold total_len; simpl.
    rewrite Z.add_0_r. repeat split; done.
  - destruct w as [n ge]; simpl in Hge; subst ge.
    pose proof (train_batch_runs criterion optimizer curr_loss N b n) as Hb.
    cbv zeta in Hb.
    match type of Hb with
    | runs _ _ ?w1 _ (Ok (?o1, ?c1, ?N1)) =>
        destruct (IH o1 c1 N1 w1 eq_refl)
          as (w' & t & o' & c' & Hrun & Hmode & Hge' & Ht & _ & Hblocks)
    end.
    eexists w', _, o', c'. split.
    + rewrite total_len_cons.
      replace (N + (Z.of_nat (length b) + total_len bss))%Z
        with (N + Z.of_nat (length b.*2) + total_len bss)%Z
        by (rewrite length_fmap; lia).
      eapply runs_bind; [exact Hb | exact Hrun].
    + split; [done|]. split; [done|]. split; [|split].
      * apply Forall_app. split; [|done]. by repeat constructor.
      * intros _. by eexists.
      * simpl. by rewrite Hblocks.
Qed.

(** C4: a batch step of the training driver calls, in this order, the
    model (scores), the loss, the clearing of the gradients,
    backpropagation and the optimizer step, and so does every step of a
    whole batch loop; the gradients are cleared before backpropagation, so
    the gradient the optimizer uses is the one of the current batch alone
    and the step does not depend on the gradients the parameters held when
    it began: nothing accumulated by an earlier batch reaches the update. *)
Theorem train_batch_order_no_leak criterion s batch w :
  grad_enabled w = true →
  trace (train_batch criterion s batch w) =
    [model_call (mode (net w)) true; criterion_call; optimizer_zero_grad;
     loss_backward; optimizer_step]
  ∧ grad (net (world (train_batch criterion s batch w))) =
      accumulate (zeros_like (params (net w)))
        (autograd (LossBackward criterion batch.*2
           (ModelBackward (mode (net w)) (params (net w)) (buffers (net w))
              batch.*1)))
  ∧ (∀ g, train_batch criterion s batch (with_grad g w) =
          train_batch criterion s batch w)
  ∧ ∀ bss, trace (for_each (train_batch criterion) s bss w) =
           concat ((λ _, [model_call (mode (net w)) true; criterion_call;
                          optimizer_zero_grad; loss_backward; optimizer_step])
                     <$> bss).
Proof.
  intros Hg. destruct s as [[optimizer curr_loss] N].
  split; [|split; [|split]].
  - destruct w as [n ge]; simpl in Hg; subst ge. reflexivity.
  - destruct w as [n ge]; simpl in Hg; subst ge. reflexivity.
  - intros g. destruct w as [n ge]; simpl in Hg; subst ge. reflexivity.
  - intros bss.
    destruct (train_loop_runs criterion bss optimizer curr_loss N w Hg)
      as (w' & t & o' & c' & Hrun & _ & _ & _ & _ & ->).
    by rewrite Hrun.
Qed.

Lemma count_calls_app f t1 t2 :
  count_calls f (t1 ++ t2) = (count_calls f t1 + count_calls f t2)%nat.
Proof. unfold count_calls. by rewrite List.filter_app, length_app. Qed.

Lemma count_calls_none f t :
  Forall (λ e, f e = false) t → count_calls f t = 0%nat.
Proof.
  unfold count_calls. induction 1 as [|e t He _ IH]; simpl; [done|].
  by rewrite He.
Qed.

Lemma dataset_total_len_pos {Sample} (dl : DataLoader Sample) :
  dataset dl ≠ [] → (0 < total_len (batches dl))%Z.
Proof.
  intros Hne. rewrite total_len_batches.
  destruct (dataset dl); simpl; [done | lia].
Qed.

(** One epoch of the driver on non-empty data, with a working accelerator
    query and a non-zero cadence. *)
Lemma train_epoch_runs train_dl test_dl criterion N_epochs print_freq
    optimizer acc_dict loss_dict epoch w v :
  grad_enabled w = true →
  dataset train_dl ≠ [] →
  dataset test_dl ≠ [] →
  cuda_memory_reserved 0 = Ok v →
  print_freq ≠ 0%Z →
  ∃ w' t optimizer' acc_dict' loss_dict',
    runs (train_epoch train_dl test_dl criterion N_epochs print_freq
            (optimizer, acc_dict, loss_dict) epoch)
      w w' t (Ok (optimizer', acc_dict', loss_dict'))
    ∧ grad_enabled w' = true
    ∧ count_calls is_model_train t = 0%nat
    ∧ (∃ t', t = model_call (mode (net w)) true :: t')
    ∧ if validation_due epoch N_epochs print_freq
      then mode (net w') = Evaluation
           ∧ count_calls is_model_eval t = 1%nat
           ∧ ∃ val_loss val_acc,
               outcome (validate test_dl criterion
                          (world (for_each (train_batch criterion)
                                    (optimizer, 0%Q, 0%Z) (batches train_dl) w)))
                 = Ok (val_loss, val_acc)
               ∧ acc_dict' = <[epoch := val_acc]> acc_dict
               ∧ loss_dict' = <[epoch := val_loss]> loss_dict
      else mode (net w') = mode (net w)
           ∧ count_calls is_model_eval t = 0%nat
           ∧ acc_dict' = acc_dict
           ∧ loss_dict' = loss_dict.
Proof.
  intros Hge Htrain Htest Hres HP.
  destruct (train_loop_runs criterion (batches train_dl) optimizer 0%Q 0%Z
              w Hge)
    as (w1 & t1 & o1 & c1 & Hrun1 & Hmode1 & Hge1 & Ht1 & Hhd & _).
  destruct Hhd as [t1' ->].
  { intros Hnil. pose proof (dataset_total_len_pos train_dl Htrain) as HN.
    rewrite Hnil in HN. unfold total_len in HN. simpl in HN. lia. }
  assert (Forall (λ e, is_model_eval e = false)
            (model_call (mode (net w)) true :: t1')) as Ht1e
    by (eapply Forall_impl; [exact Ht1|]; by intros e [? ?]).
  assert (Forall (λ e, is_model_train e = false)
            (model_call (mode (net w)) true :: t1')) as Ht1t
    by (eapply Forall_impl; [exact Ht1|]; by intros e [? ?]).
  pose proof (dataset_total_len_pos train_dl Htrain) as HN.
  pose proof (dataset_total_len_pos test_dl Htest) as HNtest.
  rewrite Z.add_0_l in Hrun1.
  apply Z.eqb_neq in HP.
  assert ((total_len (batches train_dl) =? 0)%Z = false) as HN0
    by (apply Z.eqb_neq; lia).
  destruct (validation_due epoch N_epochs print_freq) eqn:Hdue.
  - destruct (validate_cases test_dl criterion w1)
      as [(e & Hres' & _)|(v' & w2 & t2 & l2 & Nc & _ & Hrun2 & Hmode2 & _
                           & _ & Hge2 & Ht2 & _)]; [congruence|].
    cbv zeta in Hrun2.
    assert ((total_len (batches test_dl) =? 0)%Z = false) as HNt0
      by (apply Z.eqb_neq; lia).
    rewrite HNt0 in Hrun2.
    eexists w2, _, o1, _, _.
    split; [|split; [congruence|split; [|split]]].
    + unfold train_epoch.
      eapply runs_bind; [exact Hrun1|]. simpl. rewrite HP, Hdue.
      eapply runs_bind; [exact Hrun2|]. simpl. rewrite HN0.
      eapply runs_bind; [apply runs_emit | apply runs_ret].
    + rewrite !count_calls_app.
      rewrite (count_calls_none _ (_ :: t1')) by done.
      rewrite (count_calls_none _ t2)
        by (eapply Forall_impl; [exact Ht2|]; by intros e [-> | ->]).
      reflexivity.
    + simpl. by eexists.
    + split; [done|]. split.
      * rewrite !count_calls_app.
        rewrite (count_calls_none _ (_ :: t1')) by done.
        rewrite (count_calls_none _ t2)
          by (eapply Forall_impl; [exact Ht2|]; by intros e [-> | ->]).
        reflexivity.
      * eexists _, _. split; [|done].
        unfold runs in Hrun1, Hrun2. rewrite Hrun1. cbn [world].
        by rewrite Hrun2.
  - eexists w1, _, o1, acc_dict, loss_dict.
    split; [|split; [done|split; [|split]]].
    + unfold train_epoch.
      eapply runs_bind; [exact Hrun1|]. simpl. rewrite HP, Hdue.
      apply runs_ret.
    + rewrite count_calls_app.
      by rewrite (count_calls_none _ (_ :: t1')) by done.
    + simpl. by eexists.
    + repeat split; try done.
      rewrite count_calls_app.
      by rewrite (count_calls_none _ (_ :: t1')) by done.
Qed.

(** The epoch loop over any sequence [es] of distinct epochs, started after
    the loop has run the epochs [pre] from the state [s0] in the world
    [w0]. *)
Lemma epochs_loop_runs train_dl test_dl criterion N_epochs print_freq v s0 w0
    es :
  dataset train_dl ≠ [] →
  dataset test_dl ≠ [] →
  cuda_memory_reserved 0 = Ok v →
  print_freq ≠ 0%Z →
  NoDup es →
  ∀ pre t0 optimizer (acc_dict : gmap Z Q) (loss_dict : gmap Z (Tensor Q)) w,
    runs (for_each
            (train_epoch train_dl test_dl criterion N_epochs print_freq)
            s0 pre)
      w0 w t0 (Ok (optimizer, acc_dict, loss_dict)) →
    grad_enabled w = true →
    ∃ w' t optimizer' (acc_dict' : gmap Z Q) (loss_dict' : gmap Z (Tensor Q)),
      runs (for_each
              (train_epoch train_dl test_dl criterion N_epochs print_freq)
              (optimizer, acc_dict, loss_dict) es)
        w w' t (Ok (optimizer', acc_dict', loss_dict'))
      ∧ grad_enabled w' = true
      ∧ (∀ k, k ∉ es ∨ validation_due k N_epochs print_freq = false →
           acc_dict' !! k = acc_dict !! k ∧ loss_dict' !! k = loss_dict !! k)
      ∧ (∀ k, k ∈ es → validation_due k N_epochs print_freq = true →
           ∃ pre_k post_k w_k t_k o_k (a_k : gmap Z Q)
             (l_k : gmap Z (Tensor Q)) val_loss val_acc,
             pre ++ es = pre_k ++ k :: post_k
             ∧ runs (for_each
                       (train_epoch train_dl test_dl criterion N_epochs
                          print_freq) s0 pre_k)
                 w0 w_k t_k (Ok (o_k, a_k, l_k))
             ∧ outcome (validate test_dl criterion
                          (world (for_each (train_batch criterion)
                                    (o_k, 0%Q, 0%Z) (batches train_dl) w_k)))
                 = Ok (val_loss, val_acc)
             ∧ acc_dict' !! k = Some val_acc
             ∧ loss_dict' !! k = Some val_loss)
      ∧ count_calls is_model_eval t =
          length (List.filter (λ k, validation_due k N_epochs print_freq) es)
      ∧ (∀ k, last es = Some k →
           validation_due k N_epochs print_freq = true →
           mode (net w') = Evaluation)
      ∧ count_calls is_model_train t = 0%nat
      ∧ (es ≠ [] → ∃ t', t = model_call (mode (net w)) true :: t')
      ∧ (∀ e1 e2 rest, es = e1 :: e2 :: rest →
           validation_due e1 N_epochs print_freq = true →
           model_call Evaluation true ∈ t).
Proof.
  intros Htrain Htest Hres HP.
  induction es as [|e es IH];
    intros Hnd pre t0 optimizer acc_dict loss_dict w Hpre Hge.
  - exists w, [], optimizer, acc_dict, loss_dict.
    split; [apply runs_ret|]. split; [done|]. split; [done|].
    split; [intros k Hk; by apply elem_of_nil in Hk|].
    split; [done|]. split; [intros k Hk; by rewrite last_nil in Hk|].
    repeat split; done.
  - apply NoDup_cons in Hnd as [He Hnd].
    destruct (train_epoch_runs train_dl test_dl criterion N_epochs print_freq
                optimizer acc_dict loss_dict e w v Hge Htrain Htest Hres HP)
      as (w1 & t1 & o1 & acc1 & loss1 & Hrun1 & Hge1 & Htr1 & [t1' ->] & Hcase).
    pose proof (runs_for_each_snoc _ _ _ _ _ _ _ _ _ _ _ Hpre Hrun1) as Hpre'.
    destruct (IH Hnd _ _ o1 acc1 loss1 w1 Hpre' Hge1)
      as (w' & t' & o' & acc' & loss' & Hrun' & Hge' & Hsame & Hrec & Hcnt
          & Hlast & Htr' & Hhd' & _).
    exists w', ((model_call (mode (net w)) true :: t1') ++ t'), o', acc', loss'.
    split; [eapply runs_bind; [exact Hrun1 | exact Hrun']|].
    split; [done|].
    assert (count_calls is_model_train
              ((model_call (mode (net w)) true :: t1') ++ t') = 0%nat
            ∧ (e :: es ≠ [] →
               ∃ t'', (model_call (mode (net w)) true :: t1') ++ t' =
                      model_call (mode (net w)) true :: t'')
            ∧ (∀ e1 e2 rest, e :: es = e1 :: e2 :: rest →
                 validation_due e1 N_epochs print_freq = true →
                 model_call Evaluation true
                   ∈ (model_call (mode (net w)) true :: t1') ++ t'))
      as Hmodes.
    { split; [by rewrite count_calls_app, Htr1, Htr'|].
      split; [intros _; simpl; by eexists|].
      intros e1 e2 rest [= <- ->] Hd1. rewrite Hd1 in Hcase.
      destruct Hcase as (Hmode1 & _).
      destruct Hhd' as [t'' ->]; [done|].
      rewrite Hmode1. apply elem_of_app. right. apply elem_of_cons. by left. }
    assert (∀ k, k ∉ e :: es ∨ validation_due k N_epochs print_freq = false →
                 k ∉ es ∨ validation_due k N_epochs print_freq = false)
      as Hweak.
    { intros k [Hk|Hk]; [left | by right].
      by apply not_elem_of_cons in Hk as [_ ?]. }
    assert (∀ k, k ∈ es → validation_due k N_epochs print_freq = true →
              ∃ pre_k post_k w_k t_k o_k (a_k : gmap Z Q)
                (l_k : gmap Z (Tensor Q)) val_loss val_acc,
                pre ++ e :: es = pre_k ++ k :: post_k
                ∧ runs (for_each
                          (train_epoch train_dl test_dl criterion N_epochs
                             print_freq) s0 pre_k)
                    w0 w_k t_k (Ok (o_k, a_k, l_k))
                ∧ outcome (validate test_dl criterion
                             (world (for_each (train_batch criterion)
                                       (o_k, 0%Q, 0%Z) (batches train_dl) w_k)))
                    = Ok (val_loss, val_acc)
                ∧ acc' !! k = Some val_acc
                ∧ loss' !! k = Some val_loss) as Hrec'.
    { intros k Hk Hdk.
      destruct (Hrec k Hk Hdk)
        as (pre_k & post_k & w_k & t_k & o_k & a_k & l_k & vl & va & Heq & Hk').
      exists pre_k, post_k, w_k, t_k, o_k, a_k, l_k, vl, va.
      split; [|exact Hk']. rewrite <- Heq, <- app_assoc. done. }
    destruct (validation_due e N_epochs print_freq) eqn:Hdue.
    + destruct Hcase as (Hmode1 & Hcnt1 & vl & va & Hval & -> & ->).
      split; [|split; [|split]].
      * intros k Hk. destruct (Hsame k (Hweak k Hk)) as [-> ->].
        assert (e ≠ k) as Hne.
        { intros ->. destruct Hk as [Hk|Hk]; [|congruence].
          apply Hk, elem_of_cons. by left. }
        by rewrite !lookup_insert_ne.
      * intros k Hk Hdk.
        apply elem_of_cons in Hk as [->|Hk]; [|by apply Hrec'].
        exists pre, es, w, t0, optimizer, acc_dict, loss_dict, vl, va.
        split; [done|]. split; [exact Hpre|]. split; [exact Hval|].
        destruct (Hsame e) as [-> ->]; [by left|].
        by rewrite !lookup_insert_eq.
      * rewrite count_calls_app, Hcnt1, Hcnt. simpl. by rewrite Hdue.
      * split; [|exact Hmodes].
        intros k Hk Hdk. destruct es as [|e2 es].
        -- unfold runs in Hrun'. simpl in Hrun'.
           by injection Hrun' as <- _ _ _ _.
        -- rewrite last_cons_cons in Hk. by apply (Hlast k).
    + destruct Hcase as (Hmode1 & Hcnt1 & -> & ->).
      split; [|split; [|split]].
      * intros k Hk. exact (Hsame k (Hweak k Hk)).
      * intros k Hk Hdk. apply elem_of_cons in Hk as [->|Hk];
          [congruence | by apply Hrec'].
      * rewrite count_calls_app, Hcnt1, Hcnt. simpl. by rewrite Hdue.
      * split; [|exact Hmodes].
        intros k Hk Hdk. destruct es as [|e2 es].
        -- simpl in Hk. congruence.
        -- rewrite last_cons_cons in Hk. by apply (Hlast k).
Qed.

Lemma seqZ_split (n k : Z) pre post :
  seqZ 0 n = pre ++ k :: post → pre = seqZ 0 k.
Proof.
  intros Heq.
  assert (seqZ 0 n !! length pre = Some k) as Hk
    by (rewrite Heq; apply list_lookup_middle; done).
  apply lookup_seqZ in Hk as [Hk Hlt].
  assert (seqZ 0 n = seqZ 0 k ++ seqZ k (n - k)) as Hsplit.
  { replace n with (k + (n - k))%Z at 1 by lia.
    rewrite seqZ_app by lia. by rewrite Z.add_0_l. }
  rewrite Hsplit in Heq.
  apply app_inj_1 in Heq as [Heq _]; [done|]. rewrite length_seqZ. lia.
Qed.

Lemma last_seqZ (n : Z) : (1 ≤ n)%Z → last (seqZ 0 n) = Some (n - 1)%Z.
Proof.
  intros Hn. replace n with (Z.of_nat (S (Z.to_nat (n - 1)))) at 1 by lia.
  rewrite seqZ_S, last_snoc. f_equal. lia.
Qed.

(** A whole run of the driver on non-empty data, with a working
    accelerator query and a non-zero cadence. *)
Lemma train_model_runs train_dl test_dl criterion N_epochs print_freq lr w v :
  grad_enabled w = true →
  dataset train_dl ≠ [] →
  dataset test_dl ≠ [] →
  cuda_memory_reserved 0 = Ok v →
  print_freq ≠ 0%Z →
  ∃ w' t (acc_dict : gmap Z Q) (loss_dict : gmap Z (Tensor Q)),
    runs (train_model train_dl test_dl criterion N_epochs print_freq lr)
      w w' ([model_train; model_to device] ++ t)
      (Ok (net w', acc_dict, loss_dict))
    ∧ (∀ k, ¬ (0 ≤ k < N_epochs)%Z
            ∨ validation_due k N_epochs print_freq = false →
         acc_dict !! k = None ∧ loss_dict !! k = None)
    ∧ (∀ k, (0 ≤ k < N_epochs)%Z →
         validation_due k N_epochs print_freq = true →
         ∃ val_loss val_acc,
           outcome (validate test_dl criterion
                      (world (train_until train_dl test_dl criterion N_epochs
                                print_freq lr k w)))
             = Ok (val_loss, val_acc)
           ∧ acc_dict !! k = Some val_acc
           ∧ loss_dict !! k = Some val_loss)
    ∧ count_calls is_model_eval t =
        length (List.filter (λ k, validation_due k N_epochs print_freq)
                  (seqZ 0 N_epochs))
    ∧ ((1 ≤ N_epochs)%Z → mode (net w') = Evaluation)
    ∧ count_calls is_model_train t = 0%nat
    ∧ ((2 ≤ N_epochs)%Z → model_call Evaluation true ∈ t).
Proof.
  intros Hge Htrain Htest Hres HP.
  destruct (epochs_loop_runs train_dl test_dl criterion N_epochs print_freq v
              (Adam (params (net (with_mode Training w))) lr, ∅, ∅)
              (with_mode Training w)
              (seqZ 0 N_epochs) Htrain Htest Hres HP (NoDup_seqZ _ _)
              [] [] (Adam (params (net (with_mode Training w))) lr) ∅ ∅
              (with_mode Training w) (runs_ret _ _) Hge)
    as (w' & t & o' & acc & loss & Hrun & Hge' & Hsame & Hrec & Hcnt & Hlast
        & Htr & _ & Hev).
  exists w', t, acc, loss. split; [|split; [|split; [|split; [|split; [|split]]]]].
  - unfold train_model.
    eapply runs_trace.
    { eapply runs_bind; [apply runs_set_mode|].
      eapply runs_bind; [apply runs_emit|].
      eapply runs_bind; [reflexivity|].
      eapply runs_bind; [exact Hrun|]. simpl.
      eapply runs_bind; [reflexivity | apply runs_ret]. }
    simpl. by rewrite !app_nil_r.
  - intros k Hk. destruct (Hsame k) as [-> ->]; [|done].
    destruct Hk as [Hk|Hk]; [left | by right].
    rewrite elem_of_seqZ. lia.
  - intros k Hk Hdk.
    destruct (Hrec k) as (pre_k & post_k & w_k & t_k & o_k & a_k & l_k & vl
                          & va & Heq & Hpre & Hval & Ha & Hl);
      [rewrite elem_of_seqZ; lia | done |].
    simpl in Heq. apply seqZ_split in Heq as ->.
    exists vl, va. split; [|done].
    replace (world (train_until train_dl test_dl criterion N_epochs print_freq
                      lr k w))
      with (world (for_each (train_batch criterion) (o_k, 0%Q, 0%Z)
                     (batches train_dl) w_k)); [done|].
    unfold train_until.
    rewrite (world_bind _ _ _ _ _ _ (runs_set_mode Training w)).
    rewrite (world_bind (to_device device) _ (with_mode Training w)
               (with_mode Training w) [model_to device] tt eq_refl).
    rewrite (world_bind (A:=Net) _ _ _ (with_mode Training w) []
               (net (with_mode Training w)) eq_refl).
    rewrite (world_bind _ _ _ _ _ _ Hpre). simpl.
    by rewrite world_bind_ret.
  - done.
  - intros HE. apply (Hlast (N_epochs - 1)%Z); [by apply last_seqZ|].
    apply validation_due_spec. by right.
  - done.
  - intros HE. apply (Hev 0%Z 1%Z (seqZ 2 (N_epochs - 2))).
    + rewrite seqZ_cons by lia. rewrite (seqZ_cons (Z.succ 0)) by lia.
      do 3 f_equal; lia.
    + apply validation_due_spec. left. apply Zmod_0_l.
Qed.

(** Whatever the number of epochs, [model.train()] is called once, before
    the epoch loop; as soon as there are two epochs, a training batch step
    (a tracked forward pass) runs with the model in evaluation mode. *)
Lemma training_mode_set_once train_dl test_dl criterion N_epochs print_freq
    lr w v :
  (2 ≤ N_epochs)%Z →
  print_freq ≠ 0%Z →
  grad_enabled w = true →
  dataset train_dl ≠ [] →
  dataset test_dl ≠ [] →
  cuda_memory_reserved 0 = Ok v →
  ∃ t,
    trace (train_model train_dl test_dl criterion N_epochs print_freq lr w)
      = model_train :: model_to device :: t
    ∧ count_calls is_model_train t = 0%nat
    ∧ model_call Evaluation true ∈ t.
Proof.
  intros HE HP Hge Htrain Htest Hres.
  destruct (train_model_runs train_dl test_dl criterion N_epochs print_freq
              lr w v Hge Htrain Htest Hres HP)
    as (w' & t & acc & loss & Hrun & _ & _ & _ & _ & Htr & Hev).
  exists t. rewrite Hrun. simpl. split; [done|]. split; [done|]. by apply Hev.
Qed.

(** C5: on a run that completes (non-empty training and held-out data, a
    working accelerator query, autograd on), for every epoch count E >= 1,
    cadence P >= 1 and epoch e in [0, E-1]: if e mod P = 0 or e = E-1, both
    dictionaries hold at key e the two values [validate] returns when it
    runs right after the training batches of epoch e; otherwise neither
    dictionary has an entry for e.  The driver calls [validate] exactly once
    per epoch of the first kind. *)
Theorem validation_cadence train_dl test_dl criterion N_epochs print_freq
    lr w v :
  (1 ≤ N_epochs)%Z →
  (1 ≤ print_freq)%Z →
  grad_enabled w = true →
  dataset train_dl ≠ [] →
  dataset test_dl ≠ [] →
  cuda_memory_reserved 0 = Ok v →
  ∃ model (acc_dict : gmap Z Q) (loss_dict : gmap Z (Tensor Q)),
    outcome (train_model train_dl test_dl criterion N_epochs print_freq lr w)
      = Ok (model, acc_dict, loss_dict)
    ∧ (∀ e, (0 ≤ e < N_epochs)%Z →
         ((e `mod` print_freq = 0 ∨ e = N_epochs - 1)%Z →
          ∃ val_loss val_acc,
            outcome (validate test_dl criterion
                       (world (train_until train_dl test_dl criterion N_epochs
                                 print_freq lr e w)))
              = Ok (val_loss, val_acc)
            ∧ acc_dict !! e = Some val_acc
            ∧ loss_dict !! e = Some val_loss)
         ∧ (¬ (e `mod` print_freq = 0 ∨ e = N_epochs - 1)%Z →
            acc_dict !! e = None ∧ loss_dict !! e = None))
    ∧ count_calls is_model_eval
        (trace (train_model train_dl test_dl criterion N_epochs print_freq
                  lr w)) =
      length (List.filter (λ e, validation_due e N_epochs print_freq)
                (seqZ 0 N_epochs)).
Proof.
  intros HE HP Hge Htrain Htest Hres.
  destruct (train_model_runs train_dl test_dl criterion N_epochs print_freq
              lr w v Hge Htrain Htest Hres ltac:(lia))
    as (w' & t & acc & loss & Hrun & Hnone & Hrec & Hcnt & _ & _ & _).
  exists (net w'), acc, loss. rewrite Hrun. simpl.
  split; [done|]. split; [|done].
  intros e He. split.
  - intros Hdue. apply Hrec; [done|]. by apply validation_due_spec.
  - intros Hdue. apply Hnone. right.
    destruct (validation_due e N_epochs print_freq) eqn:Hd; [|done].
    by apply validation_due_spec in Hd.
Qed.

(** C10: on a run that completes, for every epoch count E >= 1 the model
    that [train_model] returns is in evaluation mode. *)
Theorem trained_model_in_evaluation_mode train_dl test_dl criterion N_epochs
    print_freq lr w v :
  (1 ≤ N_epochs)%Z →
  print_freq ≠ 0%Z →
  grad_enabled w = true →
  dataset train_dl ≠ [] →
  dataset test_dl ≠ [] →
  cuda_memory_reserved 0 = Ok v →
  ∃ model (acc_dict : gmap Z Q) (loss_dict : gmap Z (Tensor Q)),
    outcome (train_model train_dl test_dl criterion N_epochs print_freq lr w)
      = Ok (model, acc_dict, loss_dict)
    ∧ mode model = Evaluation.
Proof.
  intros HE HP Hge Htrain Htest Hres.
  destruct (train_model_runs train_dl test_dl criterion N_epochs print_freq
              lr w v Hge Htrain Htest Hres HP)
    as (w' & t & acc & loss & Hrun & _ & _ & _ & Hmode & _ & _).
  exists (net w'), acc, loss. rewrite Hrun. simpl. split; [done|].
  by apply Hmode.
Qed.

(** C7: with an epoch count of 0, [train_model] returns the model with the
    parameters (and buffers and gradients) it was given and two empty
    dictionaries; the only calls it makes are [model.train()] and
    [model.to(device)]: no validation, no training step, nothing
    printed. *)
Theorem train_model_zero_epochs train_dl test_dl criterion print_freq lr w :
  ∃ model,
    outcome (train_model train_dl test_dl criterion 0 print_freq lr w)
      = Ok (model, ∅, ∅)
    ∧ params model = params (net w)
    ∧ buffers model = buffers (net w)
    ∧ grad model = grad (net w)
    ∧ trace (train_model train_dl test_dl criterion 0 print_freq lr w)
      = [model_train; model_to device].
Proof. eexists. split; [reflexivity|]. repeat split. Qed.

End Train.

(** ** The notebook on concrete data *)

Section Examples.

(** C2: the driver sets training mode once, before the epoch loop, and
    [validate] leaves the model in evaluation mode.  With two epochs, a
    cadence of 1, one training batch and one held-out batch, the calls of
    the run are the following: the batch step of epoch 0 runs the model in
    training mode, the batch step of epoch 1 (a tracked forward pass
    followed by backpropagation and an optimizer step) runs it in
    evaluation mode. *)
Theorem second_epoch_trains_in_evaluation_mode :
  trace (train_model (T:=gpu_torch) (toy_loader [(1, 1)%Z] 1)
           (toy_loader [(2, 0)%Z] 1) CrossEntropyLoss 2 1 (1 # 1000)
           (toy_world gpu_torch 0%Z tt 0%Z)) =
    [model_train; model_to cuda;
     model_call Training true; criterion_call; optimizer_zero_grad;
     loss_backward; optimizer_step;
     model_eval; memory_reserved_call 0; print_cached 0;
     model_call Evaluation false; criterion_call;
     print_iter 0 0 1 0;
     model_call Evaluation true; criterion_call; optimizer_zero_grad;
     loss_backward; optimizer_step;
     model_eval; memory_reserved_call 0; print_cached 0;
     model_call Evaluation false; criterion_call;
     print_iter 1 1 0 1].
Proof. vm_compute. reflexivity. Qed.

(** C3: on a held-out set of two samples whose losses are 1 and 3, served
    as one batch of two, [validate] returns the loss 1: the batch mean 2
    divided once more by the number of samples.  The mean per-sample loss
    of that pass is 2. *)
Theorem validate_loss_is_not_sample_mean :
  ∃ val_loss val_acc,
    outcome (validate (T:=gpu_torch) (toy_loader [(1, 0)%Z; (3, 0)%Z] 2)
               CrossEntropyLoss (toy_world gpu_torch 0%Z tt 0%Z))
      = Ok (val_loss, val_acc)
    ∧ (data val_loss == 1)%Q
    ∧ (mean_sample_loss (T:=gpu_torch) 0%Z tt
         (batches (toy_loader [(1, 0)%Z; (3, 0)%Z] 2)) == 2)%Q
    ∧ ¬ (data val_loss ==
           mean_sample_loss (T:=gpu_torch) 0%Z tt
             (batches (toy_loader [(1, 0)%Z; (3, 0)%Z] 2)))%Q.
Proof.
  eexists _, _. split; [vm_compute; reflexivity|].
  split; [reflexivity|]. split; [reflexivity|]. by intros [=].
Qed.


Lemma train_batch_order_no_leak_witness :
  trace (train_batch (T:=gpu_torch) CrossEntropyLoss (tt, 0%Q, 0%Z)
           [(1, 1)%Z; (2, 0)%Z] (toy_world gpu_torch 0%Z tt 7%Z)) =
    [model_call Evaluation true; criterion_call; optimizer_zero_grad;
     loss_backward; optimizer_step]
  ∧ train_batch (T:=gpu_torch) CrossEntropyLoss (tt, 0%Q, 0%Z)
      [(1, 1)%Z; (2, 0)%Z]
      (with_grad (T:=gpu_torch) 5%Z (toy_world gpu_torch 0%Z tt 7%Z)) =
    train_batch (T:=gpu_torch) CrossEntropyLoss (tt, 0%Q, 0%Z)
      [(1, 1)%Z; (2, 0)%Z] (toy_world gpu_torch 0%Z tt 7%Z).
Proof.
  destruct (train_batch_order_no_leak (T:=gpu_torch) CrossEntropyLoss
              (tt, 0%Q, 0%Z) [(1, 1)%Z; (2, 0)%Z]
              (toy_world gpu_torch 0%Z tt 7%Z) eq_refl)
    as (Htrace & _ & Hleak & _).
  split; [exact Htrace | exact (Hleak 5%Z)].
Defined.

Lemma batches_cover_dataset_once_witness :
  length (batches (toy_loader [(1, 0); (2, 0); (3, 1); (4, 1); (5, 0)]%Z 2))
    = 3%nat
  ∧ concat (batches (toy_loader [(1, 0); (2, 0); (3, 1); (4, 1); (5, 0)]%Z 2))
    = [(1, 0); (2, 0); (3, 1); (4, 1); (5, 0)]%Z.
Proof.
  destruct (batches_cover_dataset_once
              (toy_loader [(1, 0); (2, 0); (3, 1); (4, 1); (5, 0)]%Z 2))
    as (Hlen & _ & _ & Hcat & _); [simpl; lia|].
  split; [exact Hlen | exact Hcat].
Defined.


Lemma validation_cadence_witness :
  ∃ model (acc_dict : gmap Z Q) (loss_dict : gmap Z (Tensor Q)),
    outcome (train_model (T:=gpu_torch) (toy_loader [(1, 1)%Z] 1)
               (toy_loader [(2, 0)%Z] 1) CrossEntropyLoss 4 2 (1 # 1000)
               (toy_world gpu_torch 0%Z tt 0%Z))
      = Ok (model, acc_dict, loss_dict)
    ∧ acc_dict !! 1%Z = None ∧ loss_dict !! 1%Z = None
    ∧ is_Some (acc_dict !! 2%Z) ∧ is_Some (loss_dict !! 3%Z).
Proof.
  destruct (validation_cadence (T:=gpu_torch) (toy_loader [(1, 1)%Z] 1)
              (toy_loader [(2, 0)%Z] 1) CrossEntropyLoss 4 2 (1 # 1000)
              (toy_world gpu_torch 0%Z tt 0%Z) 0%Z)
    as (model & acc & loss & Hout & Hkeys & _).
  - lia.
  - lia.
  - reflexivity.
  - simpl. discriminate.
  - simpl. discriminate.
  - reflexivity.
  - exists model, acc, loss. split; [exact Hout|].
    destruct (Hkeys 1%Z ltac:(lia)) as [_ Hno].
    destruct (Hkeys 2%Z ltac:(lia)) as [Hyes2 _].
    destruct (Hkeys 3%Z ltac:(lia)) as [Hyes3 _].
    destruct Hno as [Ha Hl].
    { intros [H|H]; [vm_compute in H; discriminate | lia]. }
    destruct Hyes2 as (? & ? & _ & Ha2 & _); [left; reflexivity|].
    destruct Hyes3 as (? & ? & _ & _ & Hl3); [right; lia|].
    rewrite Ha, Hl, Ha2, Hl3. repeat split; eexists; reflexivity.
Defined.

Lemma trained_model_in_evaluation_mode_witness :
  ∃ model (acc_dict : gmap Z Q) (loss_dict : gmap Z (Tensor Q)),
    outcome (train_model (T:=gpu_torch) (toy_loader [(1, 1)%Z] 1)
               (toy_loader [(2, 0)%Z] 1) CrossEntropyLoss 3 2 (1 # 1000)
               (toy_world gpu_torch 0%Z tt 0%Z))
      = Ok (model, acc_dict, loss_dict)
    ∧ mode model = Evaluation.
Proof.
  apply (trained_model_in_evaluation_mode (T:=gpu_torch)
           (toy_loader [(1, 1)%Z] 1) (toy_loader [(2, 0)%Z] 1)
           CrossEntropyLoss 3 2 (1 # 1000) (toy_world gpu_torch 0%Z tt 0%Z)
           0%Z).
  - lia.
  - lia.
  - reflexivity.
  - simpl. discriminate.
  - simpl. discriminate.
  - reflexivity.
Defined.

End Examples.

(** ** More on the validation routine *)

Section ValidateMore.
Context `{T : Torch}.
Implicit Types (w : World) (criterion : Criterion)
  (test_dl : DataLoader (Image * Z)).

(** The batch loop of [validate], call by call. *)
Lemma validate_loop_exact criterion bss :
  ∀ loss N N_correct (n : Net),
    mode n = Evaluation →
    ∃ loss',
      runs (for_each (validate_batch criterion) (loss, N, N_correct) bss)
        {| net := n; grad_enabled := false |}
        {| net := {| mode := Evaluation; params := params n;
                     buffers := eval_buffers (params n) (buffers n) bss;
                     grad := grad n |};
           grad_enabled := false |}
        (concat ((λ _, validate_batch_calls) <$> bss))
        (Ok (loss', (N + total_len bss)%Z,
             (N_correct + correct_count (params n) (buffers n) bss)%Z))
      ∧ (grad_fn loss = None → grad_fn loss' = None)
      ∧ (data loss' ==
           data loss + Qsum (batch_losses criterion (params n) (buffers n) bss))%Q.
Proof.
  induction bss as [|b bss IH]; intros loss N N_correct n Hmode.
  - exists loss. destruct n as [m p bf g]; simpl in Hmode; subst m.
    unfold total_len; simpl. rewrite !Z.add_0_r.
    split; [apply runs_ret|]. split; [done|]. by rewrite Qplus_0_r.
  - destruct n as [m p bf g]; simpl in Hmode; subst m.
    set (out := forward Evaluation p bf b.*1).
    destruct (IH (tensor_add loss
                    {| data := criterion out.1 b.*2; grad_fn := None |})
                 (N + Z.of_nat (length b.*2))%Z
                 (N_correct + count_equal b.*2 (argmax <$> out.1))%Z
                 {| mode := Evaluation; params := p; buffers := out.2;
                    grad := g |} eq_refl)
      as (loss' & Hrun & Hfn & Hsum).
    exists loss'. split; [|split].
    + rewrite total_len_cons. simpl.
      replace (N + (Z.of_nat (length b) + total_len bss))%Z
        with (N + Z.of_nat (length b.*2) + total_len bss)%Z
        by (rewrite length_fmap; lia).
      rewrite Z.add_assoc.
      eapply (runs_bind _ _ _ _ _ validate_batch_calls); [|exact Hrun].
      reflexivity.
    + intros Hnone. apply Hfn. unfold tensor_add; simpl. by rewrite Hnone.
    + simpl. rewrite Hsum. unfold tensor_add; simpl. by rewrite Qplus_assoc.
Qed.

(** A call of [validate] when the accelerator query answers, call by call. *)
Lemma validate_run_exact test_dl criterion w v :
  cuda_memory_reserved 0 = Ok v →
  ∃ w' loss,
    runs (validate test_dl criterion) w w'
      ([model_eval; memory_reserved_call 0; print_cached v]
       ++ concat ((λ _, validate_batch_calls) <$> batches test_dl))
      (if (total_len (batches test_dl) =? 0)%Z then Raise ZeroDivisionError
       else Ok ({| data := (data loss / inject_Z (total_len (batches test_dl)))%Q;
                   grad_fn := None |},
                (inject_Z (correct_count (params (net w)) (buffers (net w))
                             (batches test_dl))
                 / inject_Z (total_len (batches test_dl)))%Q))
    ∧ net w' =
        {| mode := Evaluation; params := params (net w);
           buffers := eval_buffers (params (net w)) (buffers (net w))
                        (batches test_dl);
           grad := grad (net w) |}
    ∧ grad_enabled w' = grad_enabled w
    ∧ (data loss ==
         Qsum (batch_losses criterion (params (net w)) (buffers (net w))
                 (batches test_dl)))%Q.
Proof.
  intros Hres.
  destruct (validate_loop_exact criterion (batches test_dl)
              {| data := 0%Q; grad_fn := None |} 0%Z 0%Z
              (net (with_mode Evaluation w)) eq_refl)
    as (loss & Hrun & Hfn & Hsum).
  rewrite !Z.add_0_l in Hrun. simpl in Hrun, Hsum.
  eexists _, loss. split; [|split; [|split]].
  - unfold validate.
    eapply runs_trace.
    { eapply runs_bind; [apply runs_set_mode|].
      eapply runs_bind.
      { pose proof (runs_memory_reserved 0 (with_mode Evaluation w)) as Hm.
        rewrite Hres in Hm. exact Hm. }
      eapply runs_bind; [apply runs_emit|].
      eapply runs_bind; [apply runs_no_grad, Hrun|].
      simpl. rewrite (Hfn eq_refl).
      destruct (total_len (batches test_dl) =? 0)%Z;
        [apply runs_raise | apply runs_ret]. }
    simpl. by rewrite app_nil_r.
  - reflexivity.
  - reflexivity.
  - by rewrite Hsum, Qplus_0_l.
Qed.

Lemma batches_nil {Sample} (dl : DataLoader Sample) :
  dataset dl = [] → batches dl = [].
Proof. unfold batches. by intros ->. Qed.

(** X1: on an empty held-out set (with an accelerator query that
    answers), [validate] switches the model to evaluation mode, queries
    and prints the reserved memory, runs no batch, and raises
    ZeroDivisionError at the final divisions. *)
Theorem validate_empty_raises test_dl criterion w v :
  dataset test_dl = [] →
  cuda_memory_reserved 0 = Ok v →
  validate test_dl criterion w =
    {| world := with_mode Evaluation w;
       trace := [model_eval; memory_reserved_call 0; print_cached v];
       outcome := Raise ZeroDivisionError |}.
Proof.
  intros Hnil Hres.
  destruct (validate_run_exact test_dl criterion w v Hres)
    as (w' & loss & Hrun & Hnet & Hge & _).
  rewrite (batches_nil _ Hnil) in *. simpl in Hrun, Hnet.
  rewrite Hrun. f_equal. destruct w' as [n' ge']; simpl in *. by subst.
Qed.

(** X2: whatever happens in it (a result, an exception from the
    accelerator query, a division by zero), a call of [validate] leaves the
    model in evaluation mode. *)
Theorem validate_leaves_evaluation_mode test_dl criterion w :
  mode (net (world (validate test_dl criterion w))) = Evaluation.
Proof.
  destruct (validate_cases test_dl criterion w)
    as [(e & _ & Hrun)|(v & w' & t & loss & Nc & _ & Hrun & Hmode & _)];
    by rewrite Hrun.
Qed.

(** X3: on a non-empty held-out set, the accuracy [validate] returns is
    the number of samples whose top-scored class equals their label, over
    one evaluation pass, divided by the number of samples. *)
Theorem validate_accuracy_value test_dl criterion w v :
  dataset test_dl ≠ [] →
  cuda_memory_reserved 0 = Ok v →
  ∃ val_loss,
    outcome (validate test_dl criterion w) =
      Ok (val_loss,
          (inject_Z (correct_count (params (net w)) (buffers (net w))
                       (batches test_dl))
           / inject_Z (Z.of_nat (length (dataset test_dl))))%Q).
Proof.
  intros Hne Hres.
  destruct (validate_run_exact test_dl criterion w v Hres)
    as (w' & loss & Hrun & _).
  pose proof (dataset_total_len_pos test_dl Hne) as Hpos.
  rewrite Hrun. simpl.
  destruct (Z.eqb_spec (total_len (batches test_dl)) 0); [lia|].
  rewrite total_len_batches. by eexists.
Qed.

(** X4: when the accelerator query answers, the calls of [validate] are:
    [model.eval()], the memory query, its print, and then for each of the
    ceil(S/B) held-out batches one forward pass in evaluation mode that
    autograd does not track and one evaluation of the loss function;
    nothing else, also when the final division raises. *)
Theorem validate_calls test_dl criterion w v :
  (1 ≤ batch_size test_dl)%nat →
  cuda_memory_reserved 0 = Ok v →
  trace (validate test_dl criterion w) =
    [model_eval; memory_reserved_call 0; print_cached v]
    ++ concat (replicate
                 (ceil_div (length (dataset test_dl)) (batch_size test_dl))
                 [model_call Evaluation false; criterion_call]).
Proof.
  intros HB Hres.
  destruct (validate_run_exact test_dl criterion w v Hres)
    as (w' & loss & Hrun & _).
  rewrite Hrun. simpl. do 4 f_equal.
  rewrite (const_fmap _ _ validate_batch_calls) by done.
  unfold batches. by rewrite batch_loop_length by (simpl; lia).
Qed.




Lemma Qsum_app (l1 l2 : list Q) : (Qsum (l1 ++ l2) == Qsum l1 + Qsum l2)%Q.
Proof.
  induction l1 as [|x l1 IH]; simpl; [by rewrite Qplus_0_l|].
  by rewrite IH, Qplus_assoc.
Qed.

(** When the batch size divides the number of samples, every batch is
    full. *)
Lemma batch_loop_all_full {Sample} bs (batch rest : list Sample) :
  (length batch < bs)%nat →
  ((length batch + length rest) `mod` bs = 0)%nat →
  Forall (λ b, length b = bs) (batch_loop bs batch rest).
Proof.
  revert batch; induction rest as [|x rest IH]; intros batch Hlt Hmod;
    cbn [batch_loop length] in *.
  - rewrite Nat.add_0_r, Nat.mod_small in Hmod by done.
    destruct batch; [constructor | done].
  - rewrite length_app; cbn [length].
    destruct (Nat.eqb_spec (length batch + 1) bs) as [Heq|Hne].
    + constructor; [rewrite length_app; cbn [length]; lia|].
      apply IH; [cbn [length]; lia|]. cbn [length].
      replace (length batch + S (length rest))%nat
        with (length rest + 1 * bs)%nat in Hmod by lia.
      by rewrite Nat.Div0.mod_add in Hmod.
    + apply IH; rewrite length_app; cbn [length]; [lia|].
      by replace (length batch + 1 + length rest)%nat
        with (length batch + S (length rest))%nat by lia.
Qed.

(** On full batches of [B] samples, the batch means of the cross-entropy
    add up to the sum of the per-sample losses divided by [B]. *)
Lemma batch_losses_full (B : nat) (p : Params) (b : Buffers) bss :
  (1 ≤ B)%nat →
  Forall (λ batch, length batch = B) bss →
  (Qsum (batch_losses CrossEntropyLoss p b bss) ==
     Qsum (sample_losses p b bss) / inject_Z (Z.of_nat B))%Q.
Proof.
  intros HB Hfull. revert b.
  assert (¬ (inject_Z (Z.of_nat B) == 0)%Q) as HB0.
  { change 0%Q with (inject_Z 0). rewrite inject_Z_injective. lia. }
  induction Hfull as [|batch bss Hlen _ IH]; intros b; simpl.
  - by field.
  - rewrite IH, Qsum_app. unfold CrossEntropyLoss.
    rewrite length_fmap, Hlen. by field.
Qed.

(** X5: with the cross-entropy loss and a batch size B >= 1 that divides
    the number S >= 1 of held-out samples, the loss [validate] returns is
    the mean per-sample loss of the pass divided by B. *)
Theorem validate_loss_full_batches test_dl w v :
  (1 ≤ batch_size test_dl)%nat →
  (length (dataset test_dl) `mod` batch_size test_dl = 0)%nat →
  dataset test_dl ≠ [] →
  cuda_memory_reserved 0 = Ok v →
  ∃ val_loss val_acc,
    outcome (validate test_dl CrossEntropyLoss w) = Ok (val_loss, val_acc)
    ∧ (data val_loss ==
         mean_sample_loss (params (net w)) (buffers (net w)) (batches test_dl)
         / inject_Z (Z.of_nat (batch_size test_dl)))%Q.
Proof.
  intros HB Hmod Hne Hres.
  destruct (validate_run_exact test_dl CrossEntropyLoss w v Hres)
    as (w' & loss & Hrun & _ & _ & Hsum).
  pose proof (dataset_total_len_pos test_dl Hne) as Hpos.
  rewrite Hrun. simpl.
  destruct (Z.eqb_spec (total_len (batches test_dl)) 0); [lia|].
  eexists _, _. split; [reflexivity|]. simpl.
  assert (Forall (λ batch, length batch = batch_size test_dl)
            (batches test_dl)) as Hfull
    by (apply batch_loop_all_full; simpl; [lia | done]).
  pose proof (batch_losses_full (batch_size test_dl) (params (net w))
                (buffers (net w)) (batches test_dl) HB Hfull) as Hmean.
  rewrite Hsum, Hmean. unfold mean_sample_loss.
  assert (¬ (inject_Z (Z.of_nat (batch_size test_dl)) == 0)%Q).
  { change 0%Q with (inject_Z 0). rewrite inject_Z_injective. lia. }
  assert (¬ (inject_Z (total_len (batches test_dl)) == 0)%Q).
  { change 0%Q with (inject_Z 0). rewrite inject_Z_injective. lia. }
  by field.
Qed.

End ValidateMore.

(** ** More on the training driver *)

Section TrainMore.
Context `{T : Torch}.
Implicit Types (w : World) (criterion : Criterion)
  (train_dl test_dl : DataLoader (Image * Z)).

Lemma count_steps_blocks {X} (m : Mode) (bss : list X) :
  count_calls is_optimizer_step (concat ((λ _, batch_step_calls m) <$> bss))
  = length bss.
Proof.
  induction bss as [|b bss IH]; simpl; [done|].
  change (count_calls is_optimizer_step
            (batch_step_calls m
             ++ concat ((λ _, batch_step_calls m) <$> bss)) = S (length bss)).
  by rewrite count_calls_app, IH.
Qed.

(** A loop whose body always succeeds and makes [c] calls of the kind [f]
    makes [c] such calls per element. *)
Lemma for_each_counts {X S} (body : S → X → M S) (I : World → Prop)
    (f : Event → bool) (c : nat) :
  (∀ s x w, I w →
     ∃ w' t s', runs (body s x) w w' t (Ok s') ∧ I w' ∧ count_calls f t = c) →
  ∀ xs s w, I w →
    ∃ w' t s', runs (for_each body s xs) w w' t (Ok s') ∧ I w'
               ∧ count_calls f t = (length xs * c)%nat.
Proof.
  intros Hbody. induction xs as [|x xs IH]; intros s w HI.
  - exists w, [], s. split; [apply runs_ret|]. done.
  - destruct (Hbody s x w HI) as (w1 & t1 & s1 & Hrun1 & HI1 & Hc1).
    destruct (IH s1 w1 HI1) as (w' & t' & s' & Hrun' & HI' & Hc').
    exists w', (t1 ++ t'), s'. split; [by eapply runs_bind|].
    split; [done|]. rewrite count_calls_app, Hc1, Hc'. simpl. lia.
Qed.

(** One completing epoch makes one optimizer step per training batch. *)
Lemma train_epoch_steps train_dl test_dl criterion N_epochs print_freq s
    epoch w v :
  dataset train_dl ≠ [] →
  dataset test_dl ≠ [] →
  cuda_memory_reserved 0 = Ok v →
  print_freq ≠ 0%Z →
  grad_enabled w = true →
  ∃ w' t s',
    runs (train_epoch train_dl test_dl criterion N_epochs print_freq s epoch)
      w w' t (Ok s')
    ∧ grad_enabled w' = true
    ∧ count_calls is_optimizer_step t = length (batches train_dl).
Proof.
  intros Htrain Htest Hres HP Hge. destruct s as [[optimizer acc] loss].
  destruct (train_loop_runs criterion (batches train_dl) optimizer 0%Q 0%Z
              w Hge)
    as (w1 & t1 & o1 & c1 & Hrun1 & _ & Hge1 & _ & _ & ->).
  pose proof (dataset_total_len_pos train_dl Htrain) as HN.
  pose proof (dataset_total_len_pos test_dl Htest) as HNtest.
  rewrite Z.add_0_l in Hrun1. apply Z.eqb_neq in HP.
  assert ((total_len (batches train_dl) =? 0)%Z = false) as HN0
    by (apply Z.eqb_neq; lia).
  destruct (validation_due epoch N_epochs print_freq) eqn:Hdue.
  - destruct (validate_cases test_dl criterion w1)
      as [(e & Hres' & _)|(v' & w2 & t2 & l2 & Nc & _ & Hrun2 & _ & _ & _
                           & Hge2 & Ht2 & _)]; [congruence|].
    cbv zeta in Hrun2.
    assert ((total_len (batches test_dl) =? 0)%Z = false) as HNt0
      by (apply Z.eqb_neq; lia).
    rewrite HNt0 in Hrun2.
    eexists w2, _, _. split; [|split; [congruence|]].
    + unfold train_epoch.
      eapply runs_bind; [exact Hrun1|]. simpl. rewrite HP, Hdue.
      eapply runs_bind; [exact Hrun2|]. simpl. rewrite HN0.
      eapply runs_bind; [apply runs_emit | apply runs_ret].
    + rewrite !count_calls_app, count_steps_blocks.
      rewrite (count_calls_none _ t2)
        by (eapply Forall_impl; [exact Ht2|]; by intros e [-> | ->]).
      unfold count_calls. simpl. lia.
  - eexists w1, _, _. split; [|split; [done|]].
    + unfold train_epoch.
      eapply runs_bind; [exact Hrun1|]. simpl. rewrite HP, Hdue.
      apply runs_ret.
    + rewrite count_calls_app, count_steps_blocks.
      unfold count_calls. simpl. lia.
Qed.

(** A completing run makes one optimizer step per training batch and
    epoch. *)
Lemma train_model_steps train_dl test_dl criterion N_epochs print_freq lr w v :
  dataset train_dl ≠ [] →
  dataset test_dl ≠ [] →
  cuda_memory_reserved 0 = Ok v →
  print_freq ≠ 0%Z →
  grad_enabled w = true →
  count_calls is_optimizer_step
    (trace (train_model train_dl test_dl criterion N_epochs print_freq lr w))
  = (Z.to_nat N_epochs * length (batches train_dl))%nat.
Proof.
  intros Htrain Htest Hres HP Hge.
  destruct (for_each_counts
              (train_epoch train_dl test_dl criterion N_epochs print_freq)
              (λ w, grad_enabled w = true) is_optimizer_step
              (length (batches train_dl))
              (λ s x w Hw, train_epoch_steps train_dl test_dl criterion
                             N_epochs print_freq s x w v Htrain Htest Hres HP
                             Hw)
              (seqZ 0 N_epochs)
              (Adam (params (net (with_mode Training w))) lr, ∅, ∅)
              (with_mode Training w) Hge)
    as (w' & t & [[o' acc] loss] & Hrun & _ & Hcnt).
  rewrite length_seqZ in Hcnt.
  assert (runs (train_model train_dl test_dl criterion N_epochs print_freq lr)
            w w' ([model_train; model_to device] ++ t)
            (Ok (net w', acc, loss))) as Hall.
  { unfold train_model. eapply runs_trace.
    { eapply runs_bind; [apply runs_set_mode|].
      eapply runs_bind; [apply runs_emit|].
      eapply runs_bind; [reflexivity|].
      eapply runs_bind; [exact Hrun|]. simpl.
      eapply runs_bind; [reflexivity | apply runs_ret]. }
    simpl. by rewrite !app_nil_r. }
  rewrite Hall. simpl. exact Hcnt.
Qed.

(** X11: a completing run of [train_model] (non-empty data, a working
    accelerator query, autograd on, non-zero cadence, batch size B >= 1)
    makes exactly N_epochs * ceil(S/B) optimizer steps, S being the number
    of training samples: one per training batch and epoch, none during
    validation. *)
Theorem train_model_step_count train_dl test_dl criterion N_epochs print_freq
    lr w v :
  (1 ≤ batch_size train_dl)%nat →
  dataset train_dl ≠ [] →
  dataset test_dl ≠ [] →
  cuda_memory_reserved 0 = Ok v →
  print_freq ≠ 0%Z →
  grad_enabled w = true →
  count_calls is_optimizer_step
    (trace (train_model train_dl test_dl criterion N_epochs print_freq lr w))
  = (Z.to_nat N_epochs
     * ceil_div (length (dataset train_dl)) (batch_size train_dl))%nat.
Proof.
  intros HB Htrain Htest Hres HP Hge.
  rewrite (train_model_steps _ _ _ _ _ _ _ v) by done.
  unfold batches. by rewrite batch_loop_length by (simpl; lia).
Qed.

(** With an empty training set, an epoch that is due for validation ends
    in a division by zero: in [validate] when the held-out set is empty too,
    else when the training loss of the epoch is printed. *)
Lemma train_epoch_empty_raises train_dl test_dl criterion N_epochs print_freq
    s epoch w v :
  dataset train_dl = [] →
  cuda_memory_reserved 0 = Ok v →
  print_freq ≠ 0%Z →
  validation_due epoch N_epochs print_freq = true →
  ∃ w' t,
    runs (train_epoch train_dl test_dl criterion N_epochs print_freq s epoch)
      w w' t (Raise ZeroDivisionError).
Proof.
  intros Hnil Hres HP Hdue. destruct s as [[optimizer acc] loss].
  apply Z.eqb_neq in HP.
  destruct (validate_cases test_dl criterion w)
    as [(e & Hres' & _)|(v' & w2 & t2 & l2 & Nc & _ & Hrun2 & _)];
    [congruence|].
  cbv zeta in Hrun2.
  destruct (total_len (batches test_dl) =? 0)%Z.
  - eexists _, _. unfold train_epoch. rewrite (batches_nil _ Hnil).
    eapply runs_bind; [apply runs_ret|]. simpl. rewrite HP, Hdue.
    apply runs_bind_raise. exact Hrun2.
  - eexists _, _. unfold train_epoch. rewrite (batches_nil _ Hnil).
    eapply runs_bind; [apply runs_ret|]. simpl. rewrite HP, Hdue.
    eapply runs_bind; [exact Hrun2|]. simpl.
    apply runs_bind_raise. apply runs_raise.
Qed.

(** X8: with an empty training set, at least one epoch, a non-zero cadence
    and an accelerator query that answers, [train_model] raises
    ZeroDivisionError in its first epoch and returns nothing. *)
Theorem train_model_empty_training_raises train_dl test_dl criterion N_epochs
    print_freq lr w v :
  dataset train_dl = [] →
  (1 ≤ N_epochs)%Z →
  print_freq ≠ 0%Z →
  cuda_memory_reserved 0 = Ok v →
  outcome (train_model train_dl test_dl criterion N_epochs print_freq lr w)
  = Raise ZeroDivisionError.
Proof.
  intros Hnil HE HP Hres.
  destruct (train_epoch_empty_raises train_dl test_dl criterion N_epochs
              print_freq
              (Adam (params (net (with_mode Training w))) lr, ∅, ∅) 0%Z
              (with_mode Training w) v Hnil Hres HP)
    as (w' & t & Hrun).
  { apply validation_due_spec. left. apply Zmod_0_l. }
  assert (runs (train_model train_dl test_dl criterion N_epochs print_freq lr)
            w w' ([model_train] ++ [model_to device] ++ [] ++ t)
            (Raise ZeroDivisionError)) as Hall.
  { unfold train_model.
    eapply runs_bind; [apply runs_set_mode|].
    eapply runs_bind; [apply runs_emit|].
    eapply runs_bind; [reflexivity|].
    apply runs_bind_raise. rewrite seqZ_cons by lia. simpl.
    apply runs_bind_raise. exact Hrun. }
  by rewrite Hall.
Qed.


(** X10: a negative epoch count is an empty range: as with 0 epochs,
    [train_model] returns at once with the parameters, buffers and
    gradients it was given and two empty dictionaries, having only called
    [model.train()] and [model.to(device)]. *)
Theorem train_model_nonpositive_epochs train_dl test_dl criterion N_epochs
    print_freq lr w :
  (N_epochs ≤ 0)%Z →
  train_model train_dl test_dl criterion N_epochs print_freq lr w =
    {| world := with_mode Training w;
       trace := [model_train; model_to device];
       outcome := Ok (net (with_mode Training w), ∅, ∅) |}.
Proof.
  intros HE. unfold train_model. rewrite seqZ_nil by done. reflexivity.
Qed.

(** X12: after a completing run the two dictionaries have the same keys,
    all of them epochs of the run. *)
Theorem train_model_dicts_same_keys train_dl test_dl criterion N_epochs
    print_freq lr w v :
  grad_enabled w = true →
  dataset train_dl ≠ [] →
  dataset test_dl ≠ [] →
  cuda_memory_reserved 0 = Ok v →
  print_freq ≠ 0%Z →
  ∃ model (acc_dict : gmap Z Q) (loss_dict : gmap Z (Tensor Q)),
    outcome (train_model train_dl test_dl criterion N_epochs print_freq lr w)
      = Ok (model, acc_dict, loss_dict)
    ∧ dom acc_dict = dom loss_dict
    ∧ ∀ k, k ∈ dom acc_dict → (0 ≤ k < N_epochs)%Z.
Proof.
  intros Hge Htrain Htest Hres HP.
  destruct (train_model_runs train_dl test_dl criterion N_epochs print_freq
              lr w v Hge Htrain Htest Hres HP)
    as (w' & t & acc & loss & Hrun & Hnone & Hrec & _).
  exists (net w'), acc, loss. rewrite Hrun. simpl. split; [done|].
  assert (∀ k, is_Some (acc !! k) ∨ is_Some (loss !! k) →
               (0 ≤ k < N_epochs)%Z
               ∧ validation_due k N_epochs print_freq = true) as Hin.
  { intros k Hk.
    destruct (decide (0 ≤ k < N_epochs)%Z) as [Hr|Hr].
    - split; [done|].
      destruct (validation_due k N_epochs print_freq) eqn:Hd; [done|].
      destruct (Hnone k) as [Ha Hl]; [by right|].
      rewrite Ha, Hl in Hk. by destruct Hk as [[? ?]|[? ?]].
    - destruct (Hnone k) as [Ha Hl]; [by left|].
      rewrite Ha, Hl in Hk. by destruct Hk as [[? ?]|[? ?]]. }
  split.
  - apply set_eq. intros k. rewrite !elem_of_dom. split; intros Hk.
    + destruct (Hin k) as [Hr Hd]; [by left|].
      destruct (Hrec k Hr Hd) as (vl & va & _ & _ & Hl). by eexists.
    + destruct (Hin k) as [Hr Hd]; [by right|].
      destruct (Hrec k Hr Hd) as (vl & va & _ & Ha & _). by eexists.
  - intros k Hk. apply elem_of_dom in Hk. apply Hin. by left.
Qed.

(** X14: the notebook's run (batch size 128, 20 epochs, validation every
    epoch), on non-empty data with a working accelerator query: it
    completes, both dictionaries have an entry for each of the epochs
    0..19 and for nothing else, and it makes 20 * ceil(S/128) optimizer
    steps, S being the number of training samples. *)
Theorem notebook_run_dense train_data test_data w v :
  train_data ≠ [] →
  test_data ≠ [] →
  grad_enabled w = true →
  cuda_memory_reserved 0 = Ok v →
  ∃ model (acc_dict : gmap Z Q) (loss_dict : gmap Z (Tensor Q)),
    outcome (notebook_run train_data test_data w)
      = Ok (model, acc_dict, loss_dict)
    ∧ (∀ e, is_Some (acc_dict !! e) ↔ (0 ≤ e < 20)%Z)
    ∧ (∀ e, is_Some (loss_dict !! e) ↔ (0 ≤ e < 20)%Z)
    ∧ count_calls is_optimizer_step
        (trace (notebook_run train_data test_data w))
      = (20 * ceil_div (length train_data) 128)%nat.
Proof.
  intros Htrain Htest Hge Hres. unfold notebook_run, create_dataloaders.
  set (train_dl := {| dataset := train_data; batch_size := 128;
                      pin_memory := true |}).
  set (test_dl := {| dataset := test_data; batch_size := 128;
                     pin_memory := true |}).
  destruct (train_model_runs train_dl test_dl CrossEntropyLoss 20 1 (1 # 1000)
              w v Hge Htrain Htest Hres ltac:(done))
    as (w' & t & acc & loss & Hrun & Hnone & Hrec & _).
  exists (net w'), acc, loss. split; [by rewrite Hrun|].
  assert (∀ e, validation_due e 20 1 = true) as Hdue
    by (intros e; apply validation_due_spec; left; apply Z.mod_1_r).
  split; [|split].
  - intros e. split.
    + intros Hsome. destruct (decide (0 ≤ e < 20)%Z) as [|Hout]; [done|].
      destruct (Hnone e) as [Ha _]; [by left|]. rewrite Ha in Hsome.
      by destruct Hsome.
    + intros Hr. destruct (Hrec e Hr (Hdue e)) as (vl & va & _ & Ha & _).
      by eexists.
  - intros e. split.
    + intros Hsome. destruct (decide (0 ≤ e < 20)%Z) as [|Hout]; [done|].
      destruct (Hnone e) as [_ Hl]; [by left|]. rewrite Hl in Hsome.
      by destruct Hsome.
    + intros Hr. destruct (Hrec e Hr (Hdue e)) as (vl & va & _ & _ & Hl).
      by eexists.
  - rewrite (train_model_steps train_dl test_dl _ _ _ _ _ v) by done.
    unfold batches. rewrite batch_loop_length by (simpl; lia). done.
Qed.


End TrainMore.

(** ** The further properties on concrete data *)

Section MoreExamples.

Lemma validate_empty_raises_witness :
  validate (T:=gpu_torch) (toy_loader [] 2) CrossEntropyLoss
    (toy_world gpu_torch 0%Z tt 0%Z) =
    {| world := with_mode Evaluation (toy_world gpu_torch 0%Z tt 0%Z);
       trace := [model_eval; memory_reserved_call 0; print_cached 0];
       outcome := Raise ZeroDivisionError |}.
Proof.
  apply (validate_empty_raises (T:=gpu_torch) (toy_loader [] 2)
           CrossEntropyLoss (toy_world gpu_torch 0%Z tt 0%Z) 0%Z);
    reflexivity.
Defined.

Lemma validate_accuracy_value_witness :
  ∃ val_loss,
    outcome (validate (T:=gpu_torch) (toy_loader [(1, 1); (3, 0); (5, 5)]%Z 2)
               CrossEntropyLoss (toy_world gpu_torch 0%Z tt 0%Z)) =
      Ok (val_loss, (2 # 3)%Q).
Proof.
  destruct (validate_accuracy_value (T:=gpu_torch)
              (toy_loader [(1, 1); (3, 0); (5, 5)]%Z 2) CrossEntropyLoss
              (toy_world gpu_torch 0%Z tt 0%Z) 0%Z)
    as [val_loss Hout].
  - simpl. discriminate.
  - reflexivity.
  - exists val_loss. exact Hout.
Defined.

Lemma validate_calls_witness :
  trace (validate (T:=gpu_torch) (toy_loader [(1, 1); (3, 0); (5, 5)]%Z 2)
           CrossEntropyLoss (toy_world gpu_torch 0%Z tt 0%Z)) =
    [model_eval; memory_reserved_call 0; print_cached 0;
     model_call Evaluation false; criterion_call;
     model_call Evaluation false; criterion_call].
Proof.
  apply (validate_calls (T:=gpu_torch)
           (toy_loader [(1, 1); (3, 0); (5, 5)]%Z 2) CrossEntropyLoss
           (toy_world gpu_torch 0%Z tt 0%Z) 0%Z).
  - simpl. lia.
  - reflexivity.
Defined.

Lemma validate_loss_full_batches_witness :
  ∃ val_loss val_acc,
    outcome (validate (T:=gpu_torch)
               (toy_loader [(1, 0); (3, 0); (2, 0); (6, 0)]%Z 2)
               CrossEntropyLoss (toy_world gpu_torch 0%Z tt 0%Z))
      = Ok (val_loss, val_acc)
    ∧ (data val_loss ==
         mean_sample_loss (T:=gpu_torch) 0%Z tt
           (batches (toy_loader [(1, 0); (3, 0); (2, 0); (6, 0)]%Z 2))
         / inject_Z 2)%Q.
Proof.
  apply (validate_loss_full_batches (T:=gpu_torch)
           (toy_loader [(1, 0); (3, 0); (2, 0); (6, 0)]%Z 2)
           (toy_world gpu_torch 0%Z tt 0%Z) 0%Z).
  - simpl. lia.
  - reflexivity.
  - simpl. discriminate.
  - reflexivity.
Defined.

Lemma validate_loss_value_witness :
  ∃ val_loss val_acc,
    outcome (validate (T:=gpu_torch) (toy_loader [(1, 0); (3, 0); (2, 0)]%Z 2)
               CrossEntropyLoss (toy_world gpu_torch 0%Z tt 0%Z))
      = Ok (val_loss, val_acc)
    ∧ (data val_loss ==
         Qsum (batch_losses (T:=gpu_torch) CrossEntropyLoss 0%Z tt
                 (batches (toy_loader [(1, 0); (3, 0); (2, 0)]%Z 2)))
         / inject_Z 3)%Q.
Proof.
  apply (validate_loss_value (T:=gpu_torch)
           (toy_loader [(1, 0); (3, 0); (2, 0)]%Z 2) CrossEntropyLoss
           (toy_world gpu_torch 0%Z tt 0%Z) 0%Z).
  - simpl. discriminate.
  - reflexivity.
Defined.


Lemma train_model_empty_training_raises_witness :
  outcome (train_model (T:=gpu_torch) (toy_loader [] 2)
             (toy_loader [(2, 0)%Z] 1) CrossEntropyLoss 3 2 (1 # 1000)
             (toy_world gpu_torch 0%Z tt 0%Z))
  = Raise ZeroDivisionError.
Proof.
  apply (train_model_empty_training_raises (T:=gpu_torch) (toy_loader [] 2)
           (toy_loader [(2, 0)%Z] 1) CrossEntropyLoss 3 2 (1 # 1000)
           (toy_world gpu_torch 0%Z tt 0%Z) 0%Z).
  - reflexivity.
  - lia.
  - lia.
  - reflexivity.
Defined.


Lemma train_model_nonpositive_epochs_witness :
  train_model (T:=gpu_torch) (toy_loader [(1, 1)%Z] 1)
    (toy_loader [(2, 0)%Z] 1) CrossEntropyLoss (-3) 1 (1 # 1000)
    (toy_world gpu_torch 0%Z tt 0%Z) =
    {| world := with_mode Training (toy_world gpu_torch 0%Z tt 0%Z);
       trace := [model_train; model_to cuda];
       outcome := Ok (net (with_mode Training (toy_world gpu_torch 0%Z tt 0%Z)),
                      ∅, ∅) |}.
Proof.
  apply (train_model_nonpositive_epochs (T:=gpu_torch) (toy_loader [(1, 1)%Z] 1)
           (toy_loader [(2, 0)%Z] 1) CrossEntropyLoss (-3) 1 (1 # 1000)
           (toy_world gpu_torch 0%Z tt 0%Z)).
  lia.
Defined.

Lemma train_model_step_count_witness :
  count_calls is_optimizer_step
    (trace (train_model (T:=gpu_torch)
              (toy_loader [(1, 1); (2, 0); (3, 3)]%Z 2)
              (toy_loader [(2, 0)%Z] 1) CrossEntropyLoss 4 3 (1 # 1000)
              (toy_world gpu_torch 0%Z tt 0%Z)))
  = 8%nat.
Proof.
  apply (train_model_step_count (T:=gpu_torch)
           (toy_loader [(1, 1); (2, 0); (3, 3)]%Z 2) (toy_loader [(2, 0)%Z] 1)
           CrossEntropyLoss 4 3 (1 # 1000) (toy_world gpu_torch 0%Z tt 0%Z)
           0%Z).
  - simpl. lia.
  - simpl. discriminate.
  - simpl. discriminate.
  - reflexivity.
  - lia.
  - reflexivity.
Defined.

Lemma train_model_dicts_same_keys_witness :
  ∃ model (acc_dict : gmap Z Q) (loss_dict : gmap Z (Tensor Q)),
    outcome (train_model (T:=gpu_torch) (toy_loader [(1, 1)%Z] 1)
               (toy_loader [(2, 0)%Z] 1) CrossEntropyLoss 4 3 (1 # 1000)
               (toy_world gpu_torch 0%Z tt 0%Z))
      = Ok (model, acc_dict, loss_dict)
    ∧ dom acc_dict = dom loss_dict
    ∧ ∀ k, k ∈ dom acc_dict → (0 ≤ k < 4)%Z.
Proof.
  apply (train_model_dicts_same_keys (T:=gpu_torch) (toy_loader [(1, 1)%Z] 1)
           (toy_loader [(2, 0)%Z] 1) CrossEntropyLoss 4 3 (1 # 1000)
           (toy_world gpu_torch 0%Z tt 0%Z) 0%Z).
  - reflexivity.
  - simpl. discriminate.
  - simpl. discriminate.
  - reflexivity.
  - lia.
Defined.

Lemma notebook_run_dense_witness :
  ∃ model (acc_dict : gmap Z Q) (loss_dict : gmap Z (Tensor Q)),
    outcome (notebook_run (T:=gpu_torch) [(1, 1); (2, 0)]%Z [(2, 0)%Z]
               (toy_world gpu_torch 0%Z tt 0%Z))
      = Ok (model, acc_dict, loss_dict)
    ∧ (∀ e, is_Some (acc_dict !! e) ↔ (0 ≤ e < 20)%Z)
    ∧ (∀ e, is_Some (loss_dict !! e) ↔ (0 ≤ e < 20)%Z)
    ∧ count_calls is_optimizer_step
        (trace (notebook_run (T:=gpu_torch) [(1, 1); (2, 0)]%Z [(2, 0)%Z]
                  (toy_world gpu_torch 0%Z tt 0%Z)))
      = (20 * ceil_div 2 128)%nat.
Proof.
  apply (notebook_run_dense (T:=gpu_torch) [(1, 1); (2, 0)]%Z [(2, 0)%Z]
           (toy_world gpu_torch 0%Z tt 0%Z) 0%Z).
  - discriminate.
  - discriminate.
  - reflexivity.
  - reflexivity.
Defined.


End MoreExamples.

(** ** Running without an accelerator, and losses that are not numbers *)

Section Accelerator.
Context `{T : Torch}.
Implicit Types (w : World) (criterion : Criterion)
  (train_dl test_dl : DataLoader (Image * Z)).


End Accelerator.

Section AcceleratorExamples.




End AcceleratorExamples.
